(** * Client-side stream engine of the PulseAudio client library

    Shallow embedding of [src/pulse/stream.c] and the properties established
    for it.

    - Data: the stream structure with its timing snapshot, write-index
      correction ring, barriers, credit, peek cursor and callbacks.
    - Model: the functions of stream.c, in the order in which they depend on
      each other: latency queries, the write pipeline, the life cycle, the
      legacy buffer attributes, latency replies, the time query, the read
      pipeline, server events, callback registration, control operations.
    - Runs: sequences of library calls and server packets applied to a
      stream; the streams the library can build are those a run reaches
      from [pa_stream_new].
    - Properties: chunking and credit of a write, the invariants of runs,
      the barriers, the clamp of the time query, the peek cursor, the
      reservation of correction slots, the order of the correction walk.
    - Evaluations of the model on concrete streams.

    Conventions.
    - C integers are [Z] values; an assignment to a fixed-width lvalue is
      written with the matching wrap ([u32], [u64], [s64]).  Indices into
      the correction ring, which are never negative, are [nat].
    - A function that starts with [PA_CHECK_VALIDITY...] returns [Err e] when
      a check fails (the error stored in the context, the C function giving
      back a negative value or [NULL]) and [Ok ...] otherwise.
    - Everything sent to the transport and every user callback invoked is
      recorded, in program order, as a list of [event]s.
    - Pointers to user functions and user data are [Z] addresses; a function
      pointer that may be [NULL] is an [option Z].
    - Reference counts, the operation list of the context, the reply
      dispatcher, the timer of the event loop and the smoother belong to
      collaborators and are not stream data here. *)

From Stdlib Require Import ZArith Lia Bool List Sorted.
From stdpp Require Import base tactics option list numbers.

#[local] Open Scope Z_scope.

(** ** Fixed-width arithmetic *)

Definition u32 (z : Z) : Z := z mod 2 ^ 32.
Definition u64 (z : Z) : Z := z mod 2 ^ 64.
Definition s64 (z : Z) : Z := (z + 2 ^ 63) mod 2 ^ 64 - 2 ^ 63.

(** C's logical negation on an integer, [!x], and the truth of an integer
    used as a condition. *)
Definition c_not (x : Z) : Z := if x =? 0 then 1 else 0.
Definition c_true (x : Z) : bool := negb (x =? 0).

(** ** Enumerations *)

Inductive pa_stream_state_t :=
| PA_STREAM_UNCONNECTED
| PA_STREAM_CREATING
| PA_STREAM_READY
| PA_STREAM_FAILED
| PA_STREAM_TERMINATED.

Inductive pa_stream_direction_t :=
| PA_STREAM_NODIRECTION
| PA_STREAM_PLAYBACK
| PA_STREAM_RECORD
| PA_STREAM_UPLOAD.

Inductive pa_seek_mode_t :=
| PA_SEEK_RELATIVE
| PA_SEEK_ABSOLUTE
| PA_SEEK_RELATIVE_ON_READ
| PA_SEEK_RELATIVE_END.

(** The enumerators of [pa_seek_mode_t] in declaration order. *)
Definition seek_value (m : pa_seek_mode_t) : Z :=
  match m with
  | PA_SEEK_RELATIVE => 0
  | PA_SEEK_ABSOLUTE => 1
  | PA_SEEK_RELATIVE_ON_READ => 2
  | PA_SEEK_RELATIVE_END => 3
  end.

Inductive pa_stream_flags_t :=
| PA_STREAM_START_CORKED
| PA_STREAM_INTERPOLATE_TIMING
| PA_STREAM_NOT_MONOTONOUS
| PA_STREAM_AUTO_TIMING_UPDATE
| PA_STREAM_NO_REMAP_CHANNELS
| PA_STREAM_NO_REMIX_CHANNELS
| PA_STREAM_FIX_FORMAT
| PA_STREAM_FIX_RATE
| PA_STREAM_FIX_CHANNELS
| PA_STREAM_DONT_MOVE
| PA_STREAM_VARIABLE_RATE
| PA_STREAM_PEAK_DETECT
| PA_STREAM_START_MUTED
| PA_STREAM_ADJUST_LATENCY.

Inductive pa_error :=
| PA_ERR_INVALID
| PA_ERR_BADSTATE
| PA_ERR_NODATA
| PA_ERR_NOTSUPPORTED
| PA_ERR_INTERNAL
| PA_ERR_PROTOCOL
| PA_ERR_KILLED.

Inductive pa_command :=
| PA_COMMAND_CREATE_PLAYBACK_STREAM
| PA_COMMAND_CREATE_RECORD_STREAM
| PA_COMMAND_GET_PLAYBACK_LATENCY
| PA_COMMAND_GET_RECORD_LATENCY
| PA_COMMAND_CORK_PLAYBACK_STREAM
| PA_COMMAND_CORK_RECORD_STREAM
| PA_COMMAND_FLUSH_PLAYBACK_STREAM
| PA_COMMAND_FLUSH_RECORD_STREAM
| PA_COMMAND_PREBUF_PLAYBACK_STREAM
| PA_COMMAND_TRIGGER_PLAYBACK_STREAM
| PA_COMMAND_DRAIN_PLAYBACK_STREAM.

#[global] Instance pa_stream_state_eq_dec : EqDecision pa_stream_state_t.
Proof. solve_decision. Defined.
#[global] Instance pa_stream_direction_eq_dec : EqDecision pa_stream_direction_t.
Proof. solve_decision. Defined.
#[global] Instance pa_seek_mode_eq_dec : EqDecision pa_seek_mode_t.
Proof. solve_decision. Defined.
#[global] Instance pa_stream_flags_eq_dec : EqDecision pa_stream_flags_t.
Proof. solve_decision. Defined.

Inductive result (A : Type) : Type :=
| Ok (a : A)
| Err (e : pa_error).
Arguments Ok {A} a.
Arguments Err {A} e.

(** ** Structures *)

#[local] Set Primitive Projections.

(** [pa_sample_spec]: only carried around and handed to the conversion
    helpers. *)
Record pa_sample_spec := {
  format : Z;
  rate : Z;
  channels : Z }.

Record pa_buffer_attr := {
  maxlength : Z;
  tlength : Z;
  prebuf : Z;
  minreq : Z;
  fragsize : Z }.

(** One entry of the write-index correction ring. *)
Record pa_index_correction := {
  tag : Z;
  valid : bool;
  value : Z;
  absolute : bool;
  corrupt : bool }.

(** [pa_timing_info]; time stamps are microseconds since the epoch. *)
Record pa_timing_info := {
  timestamp : Z;
  synchronized_clocks : bool;
  sink_usec : Z;
  source_usec : Z;
  transport_usec : Z;
  playing : bool;
  write_index_corrupt : bool;
  write_index : Z;
  read_index_corrupt : bool;
  read_index : Z;
  configured_sink_usec : Z;
  configured_source_usec : Z;
  since_underrun : Z }.

(** A memory block is known by the address [pa_memblock_acquire] gives for
    its data. *)
Record pa_memblock := { data_ptr : Z }.

Module memchunk.
Record t := {
  memblock : option pa_memblock;
  index : Z;
  length : Z }.
End memchunk.
Abbreviation pa_memchunk := memchunk.t.

(** The user callbacks of a stream, each with the user data registered
    together with it. *)
Record stream_callbacks := {
  read_callback : option Z;
  read_userdata : Z;
  write_callback : option Z;
  write_userdata : Z;
  state_callback : option Z;
  state_userdata : Z;
  overflow_callback : option Z;
  overflow_userdata : Z;
  underflow_callback : option Z;
  underflow_userdata : Z;
  latency_update_callback : option Z;
  latency_update_userdata : Z;
  moved_callback : option Z;
  moved_userdata : Z;
  suspended_callback : option Z;
  suspended_userdata : Z;
  started_callback : option Z;
  started_userdata : Z }.

(** The parts of the owning [pa_context] the stream code reads or writes:
    the protocol version, the command tag counter, whether the transport
    uses shared memory ([pa_pstream_get_shm]) and the largest block of the
    memory pool ([pa_mempool_block_size_max]). *)
Record pa_context := {
  version : Z;
  ctag : Z;
  shm : bool;
  block_size_max : Z }.

(** [flags] lists the bits set in the flag word; [smoother] tells whether
    the stream has a smoother; [record_memblockq] is the local queue of a
    record stream, oldest chunk first. *)
Record pa_stream := {
  context : pa_context;
  direction : pa_stream_direction_t;
  state : pa_stream_state_t;
  flags : list pa_stream_flags_t;
  sample_spec : pa_sample_spec;
  channel : Z;
  requested_bytes : Z;
  buffer_attr : pa_buffer_attr;
  suspended : bool;
  corked : bool;
  peek_memchunk : pa_memchunk;
  peek_data : option Z;
  record_memblockq : list pa_memchunk;
  timing_info : pa_timing_info;
  timing_info_valid : bool;
  previous_time : Z;
  read_index_not_before : Z;
  write_index_not_before : Z;
  write_index_corrections : list pa_index_correction;
  current_write_index_correction : nat;
  auto_timing_update_requested : bool;
  callbacks : stream_callbacks;
  smoother : bool }.

(** What leaves the stream: payloads and commands handed to the transport,
    and calls into user code. *)
Record payload := {
  p_channel : Z;
  p_offset : Z;
  p_seek : pa_seek_mode_t;
  p_data : Z;
  p_length : Z;
  p_user_block : bool }.

Inductive event :=
| ev_send_memblock (p : payload)
| ev_send_tagstruct (command : pa_command) (t : Z)
| ev_free_cb (f : Z)
| ev_notify (cb : Z) (userdata : Z)
| ev_request (cb : Z) (nbytes : Z) (userdata : Z)
| ev_success (cb : Z) (success : bool) (userdata : Z).

(** A pending [pa_operation]: the tag of the command it waits for and the
    completion callback. *)
Record pa_operation := {
  op_tag : Z;
  op_callback : option Z;
  op_userdata : Z }.

(** ** Field updates *)

Definition set_ctag v (s : pa_context) : pa_context :=
  let 'Build_pa_context x0 _ x2 x3 := s in
  Build_pa_context x0 v x2 x3.
Definition set_maxlength v (s : pa_buffer_attr) : pa_buffer_attr :=
  let 'Build_pa_buffer_attr _ x1 x2 x3 x4 := s in
  Build_pa_buffer_attr v x1 x2 x3 x4.
Definition set_tlength v (s : pa_buffer_attr) : pa_buffer_attr :=
  let 'Build_pa_buffer_attr x0 _ x2 x3 x4 := s in
  Build_pa_buffer_attr x0 v x2 x3 x4.
Definition set_prebuf v (s : pa_buffer_attr) : pa_buffer_attr :=
  let 'Build_pa_buffer_attr x0 x1 _ x3 x4 := s in
  Build_pa_buffer_attr x0 x1 v x3 x4.
Definition set_minreq v (s : pa_buffer_attr) : pa_buffer_attr :=
  let 'Build_pa_buffer_attr x0 x1 x2 _ x4 := s in
  Build_pa_buffer_attr x0 x1 x2 v x4.
Definition set_fragsize v (s : pa_buffer_attr) : pa_buffer_attr :=
  let 'Build_pa_buffer_attr x0 x1 x2 x3 _ := s in
  Build_pa_buffer_attr x0 x1 x2 x3 v.
Definition set_tag v (s : pa_index_correction) : pa_index_correction :=
  let 'Build_pa_index_correction _ x1 x2 x3 x4 := s in
  Build_pa_index_correction v x1 x2 x3 x4.
Definition set_valid v (s : pa_index_correction) : pa_index_correction :=
  let 'Build_pa_index_correction x0 _ x2 x3 x4 := s in
  Build_pa_index_correction x0 v x2 x3 x4.
Definition set_value v (s : pa_index_correction) : pa_index_correction :=
  let 'Build_pa_index_correction x0 x1 _ x3 x4 := s in
  Build_pa_index_correction x0 x1 v x3 x4.
Definition set_absolute v (s : pa_index_correction) : pa_index_correction :=
  let 'Build_pa_index_correction x0 x1 x2 _ x4 := s in
  Build_pa_index_correction x0 x1 x2 v x4.
Definition set_corrupt v (s : pa_index_correction) : pa_index_correction :=
  let 'Build_pa_index_correction x0 x1 x2 x3 _ := s in
  Build_pa_index_correction x0 x1 x2 x3 v.
Definition set_timestamp v (s : pa_timing_info) : pa_timing_info :=
  let 'Build_pa_timing_info _ x1 x2 x3 x4 x5 x6 x7 x8 x9 x10 x11 x12 := s in
  Build_pa_timing_info v x1 x2 x3 x4 x5 x6 x7 x8 x9 x10 x11 x12.
Definition set_synchronized_clocks v (s : pa_timing_info) : pa_timing_info :=
  let 'Build_pa_timing_info x0 _ x2 x3 x4 x5 x6 x7 x8 x9 x10 x11 x12 := s in
  Build_pa_timing_info x0 v x2 x3 x4 x5 x6 x7 x8 x9 x10 x11 x12.
Definition set_sink_usec v (s : pa_timing_info) : pa_timing_info :=
  let 'Build_pa_timing_info x0 x1 _ x3 x4 x5 x6 x7 x8 x9 x10 x11 x12 := s in
  Build_pa_timing_info x0 x1 v x3 x4 x5 x6 x7 x8 x9 x10 x11 x12.
Definition set_source_usec v (s : pa_timing_info) : pa_timing_info :=
  let 'Build_pa_timing_info x0 x1 x2 _ x4 x5 x6 x7 x8 x9 x10 x11 x12 := s in
  Build_pa_timing_info x0 x1 x2 v x4 x5 x6 x7 x8 x9 x10 x11 x12.
Definition set_transport_usec v (s : pa_timing_info) : pa_timing_info :=
  let 'Build_pa_timing_info x0 x1 x2 x3 _ x5 x6 x7 x8 x9 x10 x11 x12 := s in
  Build_pa_timing_info x0 x1 x2 x3 v x5 x6 x7 x8 x9 x10 x11 x12.
Definition set_playing v (s : pa_timing_info) : pa_timing_info :=
  let 'Build_pa_timing_info x0 x1 x2 x3 x4 _ x6 x7 x8 x9 x10 x11 x12 := s in
  Build_pa_timing_info x0 x1 x2 x3 x4 v x6 x7 x8 x9 x10 x11 x12.
Definition set_write_index_corrupt v (s : pa_timing_info) : pa_timing_info :=
  let 'Build_pa_timing_info x0 x1 x2 x3 x4 x5 _ x7 x8 x9 x10 x11 x12 := s in
  Build_pa_timing_info x0 x1 x2 x3 x4 x5 v x7 x8 x9 x10 x11 x12.
Definition set_write_index v (s : pa_timing_info) : pa_timing_info :=
  let 'Build_pa_timing_info x0 x1 x2 x3 x4 x5 x6 _ x8 x9 x10 x11 x12 := s in
  Build_pa_timing_info x0 x1 x2 x3 x4 x5 x6 v x8 x9 x10 x11 x12.
Definition set_read_index_corrupt v (s : pa_timing_info) : pa_timing_info :=
  let 'Build_pa_timing_info x0 x1 x2 x3 x4 x5 x6 x7 _ x9 x10 x11 x12 := s in
  Build_pa_timing_info x0 x1 x2 x3 x4 x5 x6 x7 v x9 x10 x11 x12.
Definition set_read_index v (s : pa_timing_info) : pa_timing_info :=
  let 'Build_pa_timing_info x0 x1 x2 x3 x4 x5 x6 x7 x8 _ x10 x11 x12 := s in
  Build_pa_timing_info x0 x1 x2 x3 x4 x5 x6 x7 x8 v x10 x11 x12.
Definition set_configured_sink_usec v (s : pa_timing_info) : pa_timing_info :=
  let 'Build_pa_timing_info x0 x1 x2 x3 x4 x5 x6 x7 x8 x9 _ x11 x12 := s in
  Build_pa_timing_info x0 x1 x2 x3 x4 x5 x6 x7 x8 x9 v x11 x12.
Definition set_configured_source_usec v (s : pa_timing_info) : pa_timing_info :=
  let 'Build_pa_timing_info x0 x1 x2 x3 x4 x5 x6 x7 x8 x9 x10 _ x12 := s in
  Build_pa_timing_info x0 x1 x2 x3 x4 x5 x6 x7 x8 x9 x10 v x12.
Definition set_since_underrun v (s : pa_timing_info) : pa_timing_info :=
  let 'Build_pa_timing_info x0 x1 x2 x3 x4 x5 x6 x7 x8 x9 x10 x11 _ := s in
  Build_pa_timing_info x0 x1 x2 x3 x4 x5 x6 x7 x8 x9 x10 x11 v.
Definition set_read_callback v (s : stream_callbacks) : stream_callbacks :=
  let 'Build_stream_callbacks _ x1 x2 x3 x4 x5 x6 x7 x8 x9 x10 x11 x12 x13 x14 x15 x16
    x17 := s in
  Build_stream_callbacks v x1 x2 x3 x4 x5 x6 x7 x8 x9 x10 x11 x12 x13 x14 x15 x16 x17.
Definition set_read_userdata v (s : stream_callbacks) : stream_callbacks :=
  let 'Build_stream_callbacks x0 _ x2 x3 x4 x5 x6 x7 x8 x9 x10 x11 x12 x13 x14 x15 x16
    x17 := s in
  Build_stream_callbacks x0 v x2 x3 x4 x5 x6 x7 x8 x9 x10 x11 x12 x13 x14 x15 x16 x17.
Definition set_write_callback v (s : stream_callbacks) : stream_callbacks :=
  let 'Build_stream_callbacks x0 x1 _ x3 x4 x5 x6 x7 x8 x9 x10 x11 x12 x13 x14 x15 x16
    x17 := s in
  Build_stream_callbacks x0 x1 v x3 x4 x5 x6 x7 x8 x9 x10 x11 x12 x13 x14 x15 x16 x17.
Definition set_write_userdata v (s : stream_callbacks) : stream_callbacks :=
  let 'Build_stream_callbacks x0 x1 x2 _ x4 x5 x6 x7 x8 x9 x10 x11 x12 x13 x14 x15 x16
    x17 := s in
  Build_stream_callbacks x0 x1 x2 v x4 x5 x6 x7 x8 x9 x10 x11 x12 x13 x14 x15 x16 x17.
Definition set_state_callback v (s : stream_callbacks) : stream_callbacks :=
  let 'Build_stream_callbacks x0 x1 x2 x3 _ x5 x6 x7 x8 x9 x10 x11 x12 x13 x14 x15 x16
    x17 := s in
  Build_stream_callbacks x0 x1 x2 x3 v x5 x6 x7 x8 x9 x10 x11 x12 x13 x14 x15 x16 x17.
Definition set_state_userdata v (s : stream_callbacks) : stream_callbacks :=
  let 'Build_stream_callbacks x0 x1 x2 x3 x4 _ x6 x7 x8 x9 x10 x11 x12 x13 x14 x15 x16
    x17 := s in
  Build_stream_callbacks x0 x1 x2 x3 x4 v x6 x7 x8 x9 x10 x11 x12 x13 x14 x15 x16 x17.
Definition set_overflow_callback v (s : stream_callbacks) : stream_callbacks :=
  let 'Build_stream_callbacks x0 x1 x2 x3 x4 x5 _ x7 x8 x9 x10 x11 x12 x13 x14 x15 x16
    x17 := s in
  Build_stream_callbacks x0 x1 x2 x3 x4 x5 v x7 x8 x9 x10 x11 x12 x13 x14 x15 x16 x17.
Definition set_overflow_userdata v (s : stream_callbacks) : stream_callbacks :=
  let 'Build_stream_callbacks x0 x1 x2 x3 x4 x5 x6 _ x8 x9 x10 x11 x12 x13 x14 x15 x16
    x17 := s in
  Build_stream_callbacks x0 x1 x2 x3 x4 x5 x6 v x8 x9 x10 x11 x12 x13 x14 x15 x16 x17.
Definition set_underflow_callback v (s : stream_callbacks) : stream_callbacks :=
  let 'Build_stream_callbacks x0 x1 x2 x3 x4 x5 x6 x7 _ x9 x10 x11 x12 x13 x14 x15 x16
    x17 := s in
  Build_stream_callbacks x0 x1 x2 x3 x4 x5 x6 x7 v x9 x10 x11 x12 x13 x14 x15 x16 x17.
Definition set_underflow_userdata v (s : stream_callbacks) : stream_callbacks :=
  let 'Build_stream_callbacks x0 x1 x2 x3 x4 x5 x6 x7 x8 _ x10 x11 x12 x13 x14 x15 x16
    x17 := s in
  Build_stream_callbacks x0 x1 x2 x3 x4 x5 x6 x7 x8 v x10 x11 x12 x13 x14 x15 x16 x17.
Definition set_latency_update_callback v (s : stream_callbacks) : stream_callbacks :=
  let 'Build_stream_callbacks x0 x1 x2 x3 x4 x5 x6 x7 x8 x9 _ x11 x12 x13 x14 x15 x16
    x17 := s in
  Build_stream_callbacks x0 x1 x2 x3 x4 x5 x6 x7 x8 x9 v x11 x12 x13 x14 x15 x16 x17.
Definition set_latency_update_userdata v (s : stream_callbacks) : stream_callbacks :=
  let 'Build_stream_callbacks x0 x1 x2 x3 x4 x5 x6 x7 x8 x9 x10 _ x12 x13 x14 x15 x16
    x17 := s in
  Build_stream_callbacks x0 x1 x2 x3 x4 x5 x6 x7 x8 x9 x10 v x12 x13 x14 x15 x16 x17.
Definition set_moved_callback v (s : stream_callbacks) : stream_callbacks :=
  let 'Build_stream_callbacks x0 x1 x2 x3 x4 x5 x6 x7 x8 x9 x10 x11 _ x13 x14 x15 x16
    x17 := s in
  Build_stream_callbacks x0 x1 x2 x3 x4 x5 x6 x7 x8 x9 x10 x11 v x13 x14 x15 x16 x17.
Definition set_moved_userdata v (s : stream_callbacks) : stream_callbacks :=
  let 'Build_stream_callbacks x0 x1 x2 x3 x4 x5 x6 x7 x8 x9 x10 x11 x12 _ x14 x15 x16
    x17 := s in
  Build_stream_callbacks x0 x1 x2 x3 x4 x5 x6 x7 x8 x9 x10 x11 x12 v x14 x15 x16 x17.
Definition set_suspended_callback v (s : stream_callbacks) : stream_callbacks :=
  let 'Build_stream_callbacks x0 x1 x2 x3 x4 x5 x6 x7 x8 x9 x10 x11 x12 x13 _ x15 x16
    x17 := s in
  Build_stream_callbacks x0 x1 x2 x3 x4 x5 x6 x7 x8 x9 x10 x11 x12 x13 v x15 x16 x17.
Definition set_suspended_userdata v (s : stream_callbacks) : stream_callbacks :=
  let 'Build_stream_callbacks x0 x1 x2 x3 x4 x5 x6 x7 x8 x9 x10 x11 x12 x13 x14 _ x16
    x17 := s in
  Build_stream_callbacks x0 x1 x2 x3 x4 x5 x6 x7 x8 x9 x10 x11 x12 x13 x14 v x16 x17.
Definition set_started_callback v (s : stream_callbacks) : stream_callbacks :=
  let 'Build_stream_callbacks x0 x1 x2 x3 x4 x5 x6 x7 x8 x9 x10 x11 x12 x13 x14 x15 _
    x17 := s in
  Build_stream_callbacks x0 x1 x2 x3 x4 x5 x6 x7 x8 x9 x10 x11 x12 x13 x14 x15 v x17.
Definition set_started_userdata v (s : stream_callbacks) : stream_callbacks :=
  let 'Build_stream_callbacks x0 x1 x2 x3 x4 x5 x6 x7 x8 x9 x10 x11 x12 x13 x14 x15
    x16 _ := s in
  Build_stream_callbacks x0 x1 x2 x3 x4 x5 x6 x7 x8 x9 x10 x11 x12 x13 x14 x15 x16 v.
Definition set_context v (s : pa_stream) : pa_stream :=
  let 'Build_pa_stream _ x1 x2 x3 x4 x5 x6 x7 x8 x9 x10 x11 x12 x13 x14 x15 x16 x17
    x18 x19 x20 x21 x22 := s in
  Build_pa_stream v x1 x2 x3 x4 x5 x6 x7 x8 x9 x10 x11 x12 x13 x14 x15 x16 x17 x18 x19
    x20 x21 x22.
Definition set_direction v (s : pa_stream) : pa_stream :=
  let 'Build_pa_stream x0 _ x2 x3 x4 x5 x6 x7 x8 x9 x10 x11 x12 x13 x14 x15 x16 x17
    x18 x19 x20 x21 x22 := s in
  Build_pa_stream x0 v x2 x3 x4 x5 x6 x7 x8 x9 x10 x11 x12 x13 x14 x15 x16 x17 x18 x19
    x20 x21 x22.
Definition set_state v (s : pa_stream) : pa_stream :=
  let 'Build_pa_stream x0 x1 _ x3 x4 x5 x6 x7 x8 x9 x10 x11 x12 x13 x14 x15 x16 x17
    x18 x19 x20 x21 x22 := s in
  Build_pa_stream x0 x1 v x3 x4 x5 x6 x7 x8 x9 x10 x11 x12 x13 x14 x15 x16 x17 x18 x19
    x20 x21 x22.
Definition set_flags v (s : pa_stream) : pa_stream :=
  let 'Build_pa_stream x0 x1 x2 _ x4 x5 x6 x7 x8 x9 x10 x11 x12 x13 x14 x15 x16 x17
    x18 x19 x20 x21 x22 := s in
  Build_pa_stream x0 x1 x2 v x4 x5 x6 x7 x8 x9 x10 x11 x12 x13 x14 x15 x16 x17 x18 x19
    x20 x21 x22.
Definition set_sample_spec v (s : pa_stream) : pa_stream :=
  let 'Build_pa_stream x0 x1 x2 x3 _ x5 x6 x7 x8 x9 x10 x11 x12 x13 x14 x15 x16 x17
    x18 x19 x20 x21 x22 := s in
  Build_pa_stream x0 x1 x2 x3 v x5 x6 x7 x8 x9 x10 x11 x12 x13 x14 x15 x16 x17 x18 x19
    x20 x21 x22.
Definition set_channel v (s : pa_stream) : pa_stream :=
  let 'Build_pa_stream x0 x1 x2 x3 x4 _ x6 x7 x8 x9 x10 x11 x12 x13 x14 x15 x16 x17
    x18 x19 x20 x21 x22 := s in
  Build_pa_stream x0 x1 x2 x3 x4 v x6 x7 x8 x9 x10 x11 x12 x13 x14 x15 x16 x17 x18 x19
    x20 x21 x22.
Definition set_requested_bytes v (s : pa_stream) : pa_stream :=
  let 'Build_pa_stream x0 x1 x2 x3 x4 x5 _ x7 x8 x9 x10 x11 x12 x13 x14 x15 x16 x17
    x18 x19 x20 x21 x22 := s in
  Build_pa_stream x0 x1 x2 x3 x4 x5 v x7 x8 x9 x10 x11 x12 x13 x14 x15 x16 x17 x18 x19
    x20 x21 x22.
Definition set_buffer_attr v (s : pa_stream) : pa_stream :=
  let 'Build_pa_stream x0 x1 x2 x3 x4 x5 x6 _ x8 x9 x10 x11 x12 x13 x14 x15 x16 x17
    x18 x19 x20 x21 x22 := s in
  Build_pa_stream x0 x1 x2 x3 x4 x5 x6 v x8 x9 x10 x11 x12 x13 x14 x15 x16 x17 x18 x19
    x20 x21 x22.
Definition set_suspended v (s : pa_stream) : pa_stream :=
  let 'Build_pa_stream x0 x1 x2 x3 x4 x5 x6 x7 _ x9 x10 x11 x12 x13 x14 x15 x16 x17
    x18 x19 x20 x21 x22 := s in
  Build_pa_stream x0 x1 x2 x3 x4 x5 x6 x7 v x9 x10 x11 x12 x13 x14 x15 x16 x17 x18 x19
    x20 x21 x22.
Definition set_corked v (s : pa_stream) : pa_stream :=
  let 'Build_pa_stream x0 x1 x2 x3 x4 x5 x6 x7 x8 _ x10 x11 x12 x13 x14 x15 x16 x17
    x18 x19 x20 x21 x22 := s in
  Build_pa_stream x0 x1 x2 x3 x4 x5 x6 x7 x8 v x10 x11 x12 x13 x14 x15 x16 x17 x18 x19
    x20 x21 x22.
Definition set_peek_memchunk v (s : pa_stream) : pa_stream :=
  let 'Build_pa_stream x0 x1 x2 x3 x4 x5 x6 x7 x8 x9 _ x11 x12 x13 x14 x15 x16 x17 x18
    x19 x20 x21 x22 := s in
  Build_pa_stream x0 x1 x2 x3 x4 x5 x6 x7 x8 x9 v x11 x12 x13 x14 x15 x16 x17 x18 x19
    x20 x21 x22.
Definition set_peek_data v (s : pa_stream) : pa_stream :=
  let 'Build_pa_stream x0 x1 x2 x3 x4 x5 x6 x7 x8 x9 x10 _ x12 x13 x14 x15 x16 x17 x18
    x19 x20 x21 x22 := s in
  Build_pa_stream x0 x1 x2 x3 x4 x5 x6 x7 x8 x9 x10 v x12 x13 x14 x15 x16 x17 x18 x19
    x20 x21 x22.
Definition set_record_memblockq v (s : pa_stream) : pa_stream :=
  let 'Build_pa_stream x0 x1 x2 x3 x4 x5 x6 x7 x8 x9 x10 x11 _ x13 x14 x15 x16 x17 x18
    x19 x20 x21 x22 := s in
  Build_pa_stream x0 x1 x2 x3 x4 x5 x6 x7 x8 x9 x10 x11 v x13 x14 x15 x16 x17 x18 x19
    x20 x21 x22.
Definition set_timing_info v (s : pa_stream) : pa_stream :=
  let 'Build_pa_stream x0 x1 x2 x3 x4 x5 x6 x7 x8 x9 x10 x11 x12 _ x14 x15 x16 x17 x18
    x19 x20 x21 x22 := s in
  Build_pa_stream x0 x1 x2 x3 x4 x5 x6 x7 x8 x9 x10 x11 x12 v x14 x15 x16 x17 x18 x19
    x20 x21 x22.
Definition set_timing_info_valid v (s : pa_stream) : pa_stream :=
  let 'Build_pa_stream x0 x1 x2 x3 x4 x5 x6 x7 x8 x9 x10 x11 x12 x13 _ x15 x16 x17 x18
    x19 x20 x21 x22 := s in
  Build_pa_stream x0 x1 x2 x3 x4 x5 x6 x7 x8 x9 x10 x11 x12 x13 v x15 x16 x17 x18 x19
    x20 x21 x22.
Definition set_previous_time v (s : pa_stream) : pa_stream :=
  let 'Build_pa_stream x0 x1 x2 x3 x4 x5 x6 x7 x8 x9 x10 x11 x12 x13 x14 _ x16 x17 x18
    x19 x20 x21 x22 := s in
  Build_pa_stream x0 x1 x2 x3 x4 x5 x6 x7 x8 x9 x10 x11 x12 x13 x14 v x16 x17 x18 x19
    x20 x21 x22.
Definition set_read_index_not_before v (s : pa_stream) : pa_stream :=
  let 'Build_pa_stream x0 x1 x2 x3 x4 x5 x6 x7 x8 x9 x10 x11 x12 x13 x14 x15 _ x17 x18
    x19 x20 x21 x22 := s in
  Build_pa_stream x0 x1 x2 x3 x4 x5 x6 x7 x8 x9 x10 x11 x12 x13 x14 x15 v x17 x18 x19
    x20 x21 x22.
Definition set_write_index_not_before v (s : pa_stream) : pa_stream :=
  let 'Build_pa_stream x0 x1 x2 x3 x4 x5 x6 x7 x8 x9 x10 x11 x12 x13 x14 x15 x16 _ x18
    x19 x20 x21 x22 := s in
  Build_pa_stream x0 x1 x2 x3 x4 x5 x6 x7 x8 x9 x10 x11 x12 x13 x14 x15 x16 v x18 x19
    x20 x21 x22.
Definition set_write_index_corrections v (s : pa_stream) : pa_stream :=
  let 'Build_pa_stream x0 x1 x2 x3 x4 x5 x6 x7 x8 x9 x10 x11 x12 x13 x14 x15 x16 x17 _
    x19 x20 x21 x22 := s in
  Build_pa_stream x0 x1 x2 x3 x4 x5 x6 x7 x8 x9 x10 x11 x12 x13 x14 x15 x16 x17 v x19
    x20 x21 x22.
Definition set_current_write_index_correction v (s : pa_stream) : pa_stream :=
  let 'Build_pa_stream x0 x1 x2 x3 x4 x5 x6 x7 x8 x9 x10 x11 x12 x13 x14 x15 x16 x17
    x18 _ x20 x21 x22 := s in
  Build_pa_stream x0 x1 x2 x3 x4 x5 x6 x7 x8 x9 x10 x11 x12 x13 x14 x15 x16 x17 x18 v
    x20 x21 x22.
Definition set_auto_timing_update_requested v (s : pa_stream) : pa_stream :=
  let 'Build_pa_stream x0 x1 x2 x3 x4 x5 x6 x7 x8 x9 x10 x11 x12 x13 x14 x15 x16 x17
    x18 x19 _ x21 x22 := s in
  Build_pa_stream x0 x1 x2 x3 x4 x5 x6 x7 x8 x9 x10 x11 x12 x13 x14 x15 x16 x17 x18
    x19 v x21 x22.
Definition set_callbacks v (s : pa_stream) : pa_stream :=
  let 'Build_pa_stream x0 x1 x2 x3 x4 x5 x6 x7 x8 x9 x10 x11 x12 x13 x14 x15 x16 x17
    x18 x19 x20 _ x22 := s in
  Build_pa_stream x0 x1 x2 x3 x4 x5 x6 x7 x8 x9 x10 x11 x12 x13 x14 x15 x16 x17 x18
    x19 x20 v x22.
Definition set_smoother v (s : pa_stream) : pa_stream :=
  let 'Build_pa_stream x0 x1 x2 x3 x4 x5 x6 x7 x8 x9 x10 x11 x12 x13 x14 x15 x16 x17
    x18 x19 x20 x21 _ := s in
  Build_pa_stream x0 x1 x2 x3 x4 x5 x6 x7 x8 x9 x10 x11 x12 x13 x14 x15 x16 x17 x18
    x19 x20 x21 v.

(** ** Collaborators outside stream.c *)

(** Constants and helpers that stream.c takes from headers and from other
    translation units: the number of slots of the correction ring
    ([internal.h]) and the conversions between bytes and time for a sample
    specification ([sample.c]). *)
Class Externals := {
  PA_MAX_WRITE_INDEX_CORRECTIONS : nat;
  pa_bytes_to_usec : Z -> pa_sample_spec -> Z;
  pa_usec_to_bytes : Z -> pa_sample_spec -> Z }.

Definition PA_USEC_PER_MSEC : Z := 1000.

Definition no_callbacks : stream_callbacks :=
  {| read_callback := None; read_userdata := 0;
     write_callback := None; write_userdata := 0;
     state_callback := None; state_userdata := 0;
     overflow_callback := None; overflow_userdata := 0;
     underflow_callback := None; underflow_userdata := 0;
     latency_update_callback := None; latency_update_userdata := 0;
     moved_callback := None; moved_userdata := 0;
     suspended_callback := None; suspended_userdata := 0;
     started_callback := None; started_userdata := 0 |}.

(** A ring entry with every field zero, as [memset] leaves it. *)
Definition zero_correction : pa_index_correction :=
  {| tag := 0; valid := false; value := 0; absolute := false; corrupt := false |}.

(** [write_index_corrections[j]] read as an rvalue.  [oob] stands for what
    the load yields when [j] is not an index of the array. *)
Definition correction_at (oob : pa_index_correction)
    (ring : list pa_index_correction) (j : nat) : pa_index_correction :=
  default oob (ring !! j).

(** The entry under the cursor, [write_index_corrections
    [current_write_index_correction]]. *)
Definition current_correction (s : pa_stream) : pa_index_correction :=
  correction_at zero_correction (write_index_corrections s)
    (current_write_index_correction s).

Definition alter_current_correction (f : pa_index_correction -> pa_index_correction)
    (s : pa_stream) : pa_stream :=
  set_write_index_corrections
    (alter f (current_write_index_correction s) (write_index_corrections s)) s.

Definition has_flag (f : pa_stream_flags_t) (s : pa_stream) : bool :=
  bool_decide (f ∈ flags s).

Definition is_playback (s : pa_stream) : bool :=
  bool_decide (direction s = PA_STREAM_PLAYBACK).

Definition is_record (s : pa_stream) : bool :=
  bool_decide (direction s = PA_STREAM_RECORD).

Definition is_ready (s : pa_stream) : bool :=
  bool_decide (state s = PA_STREAM_READY).

(** Modelled from the spec: [pa_tagstruct_command] lives in the context
    code, outside stream.c.  Per the transport contract
    [send_command(tagged_struct) -> tag] it starts a command packet and hands
    out the context's tag counter [ctag], which it advances. *)
Definition pa_tagstruct_command (s : pa_stream) : Z * pa_stream :=
  (ctag (context s), set_context (set_ctag (u32 (ctag (context s) + 1)) (context s)) s).

(** ** Packets from the server *)

(** What a well-formed reply to the create command carries; fields the
    protocol version or the direction does not transmit are ignored. *)
Record create_reply := {
  cr_channel : Z;
  cr_requested_bytes : Z;
  cr_maxlength : Z;
  cr_tlength : Z;
  cr_prebuf : Z;
  cr_minreq : Z;
  cr_fragsize : Z;
  cr_sample_spec : pa_sample_spec;
  cr_suspended : bool;
  cr_usec : Z }.

(** A packet answering a command: an error answer (with whether
    [pa_context_handle_error] gave up on the context), an answer that fails
    to parse, or a well-formed reply. *)
Inductive answer (R : Type) : Type :=
| answer_error (fatal : bool)
| answer_malformed
| answer_reply (r : R).
Arguments answer_error {R} fatal.
Arguments answer_malformed {R}.
Arguments answer_reply {R} r.

(** What a well-formed latency reply carries; [r_underrun_for] and
    [r_playing_for] are transmitted for playback streams from protocol
    version 13 on. *)
Record latency_reply := {
  r_sink_usec : Z;
  r_source_usec : Z;
  r_playing : bool;
  r_local : Z;
  r_remote : Z;
  r_write_index : Z;
  r_read_index : Z;
  r_underrun_for : Z;
  r_playing_for : Z }.

Section Model.
Context `{ext : Externals}.

(** ** Latency queries *)

Definition pa_stream_update_timing_info (s : pa_stream) (cb : option Z) (userdata : Z)
    : result (pa_operation * pa_stream * list event) :=
  if negb (is_ready s) then Err PA_ERR_BADSTATE else
  if negb (bool_decide (direction s <> PA_STREAM_UPLOAD)) then Err PA_ERR_BADSTATE else
  let cidx :=
    if is_playback s
    then ((current_write_index_correction s + 1) mod PA_MAX_WRITE_INDEX_CORRECTIONS)%nat
    else 0%nat in
  if is_playback s && valid (correction_at zero_correction (write_index_corrections s) cidx)
  then Err PA_ERR_INTERNAL else
  let '(t, s1) := pa_tagstruct_command s in
  let o := {| op_tag := t; op_callback := cb; op_userdata := userdata |} in
  let command :=
    if is_playback s then PA_COMMAND_GET_PLAYBACK_LATENCY
    else PA_COMMAND_GET_RECORD_LATENCY in
  let s2 :=
    if is_playback s then
      set_write_index_corrections
        (<[cidx := {| tag := t; valid := true; value := 0;
                      absolute := false; corrupt := false |}]>
           (write_index_corrections s1))
        (set_current_write_index_correction cidx s1)
    else s1 in
  Ok (o, s2, [ev_send_tagstruct command t]).

(** The timer of the event loop that [request_auto_timing_update] re-arms
    at the end is not part of the stream's data and is left out. *)
Definition request_auto_timing_update (s : pa_stream) (force : bool)
    : pa_stream * list event :=
  if negb (has_flag PA_STREAM_AUTO_TIMING_UPDATE s) then (s, []) else
  if is_ready s && (force || negb (auto_timing_update_requested s)) then
    match pa_stream_update_timing_info s None 0 with
    | Ok (_, s1, ev) => (set_auto_timing_update_requested true s1, ev)
    | Err _ => (s, [])
    end
  else (s, []).

Definition invalidate_indexes (s : pa_stream) (r w : bool) : pa_stream * list event :=
  if negb (is_ready s) then (s, []) else
  let s1 :=
    if w then
      let s' := set_write_index_not_before (ctag (context s)) s in
      if timing_info_valid s'
      then set_timing_info (set_write_index_corrupt true (timing_info s')) s'
      else s'
    else s in
  let s2 :=
    if r then
      let s' := set_read_index_not_before (ctag (context s1)) s1 in
      if timing_info_valid s'
      then set_timing_info (set_read_index_corrupt true (timing_info s')) s'
      else s'
    else s1 in
  request_auto_timing_update s2 true.

(** ** Write pipeline *)

(** The [while (t_length > 0)] loop of [pa_stream_write]: the payloads handed
    to [pa_pstream_send_memblock], in order.  [None] when [fuel] iterations
    do not exhaust [t_length]. *)
Fixpoint write_chunks (fuel : nat) (c : pa_context) (chan : Z) (free_cb : option Z)
    (t_data t_length t_offset : Z) (t_seek : pa_seek_mode_t) : option (list payload) :=
  if 0 <? t_length then
    match fuel with
    | O => None
    | S fuel' =>
        let user := bool_decide (free_cb <> None) && negb (shm c) in
        let chunk_length :=
          if user then t_length else Z.min t_length (block_size_max c) in
        let p := {| p_channel := chan; p_offset := t_offset; p_seek := t_seek;
                    p_data := t_data; p_length := chunk_length;
                    p_user_block := user |} in
        match write_chunks fuel' c chan free_cb (t_data + chunk_length)
                (t_length - chunk_length) 0 PA_SEEK_RELATIVE with
        | Some ps => Some (p :: ps)
        | None => None
        end
    end
  else Some [].

(** Bookkeeping of a write in the current correction entry. *)
Definition correct_for_write (offset len : Z) (seek : pa_seek_mode_t)
    (c : pa_index_correction) : pa_index_correction :=
  match seek with
  | PA_SEEK_ABSOLUTE =>
      set_value (s64 (offset + len)) (set_absolute true (set_corrupt false c))
  | PA_SEEK_RELATIVE =>
      if negb (corrupt c) then set_value (s64 (value c + (offset + len))) c else c
  | _ => set_corrupt true c
  end.

(** Bookkeeping of a write in the latency data already at hand. *)
Definition timing_for_write (offset len : Z) (seek : pa_seek_mode_t)
    (i : pa_timing_info) : pa_timing_info :=
  match seek with
  | PA_SEEK_ABSOLUTE =>
      set_write_index (s64 (offset + len)) (set_write_index_corrupt false i)
  | PA_SEEK_RELATIVE =>
      if negb (write_index_corrupt i)
      then set_write_index (s64 (write_index i + (offset + len))) i else i
  | _ => set_write_index_corrupt true i
  end.

(** [pa_stream_write]; the bytes themselves are not modelled, [p_data] is
    the position of a payload in the caller's buffer.  The loop runs on
    [length] units of fuel, which suffices whenever the pool's block size is
    positive; the result is [None] when the loop does not finish. *)
Definition pa_stream_write (s : pa_stream) (len : Z) (free_cb : option Z)
    (offset : Z) (seek : pa_seek_mode_t) : option (result (pa_stream * list event)) :=
  if negb (is_ready s) then Some (Err PA_ERR_BADSTATE) else
  if negb (is_playback s || bool_decide (direction s = PA_STREAM_UPLOAD))
  then Some (Err PA_ERR_BADSTATE) else
  if negb (seek_value seek <=? seek_value PA_SEEK_RELATIVE_END)
  then Some (Err PA_ERR_INVALID) else
  if negb (is_playback s || (bool_decide (seek = PA_SEEK_RELATIVE) && (offset =? 0)))
  then Some (Err PA_ERR_INVALID) else
  if len <=? 0 then Some (Ok (s, [])) else
  match write_chunks (Z.to_nat len) (context s) (channel s) free_cb 0 len offset seek with
  | None => None
  | Some ps =>
      let sent := ev_send_memblock <$> ps in
      let freed :=
        match free_cb with
        | Some f => if shm (context s) then [ev_free_cb f] else []
        | None => []
        end in
      let s1 :=
        if len <? requested_bytes s
        then set_requested_bytes (u32 (requested_bytes s - len)) s
        else set_requested_bytes 0 s in
      if is_playback s1 then
        let s2 :=
          if valid (current_correction s1)
          then alter_current_correction (correct_for_write offset len seek) s1
          else s1 in
        let s3 :=
          if timing_info_valid s2
          then set_timing_info (timing_for_write offset len seek (timing_info s2)) s2
          else s2 in
        let '(s4, ev) :=
          if negb (timing_info_valid s3) || write_index_corrupt (timing_info s3)
          then request_auto_timing_update s3 true
          else (s3, []) in
        Some (Ok (s4, sent ++ freed ++ ev))
      else Some (Ok (s1, sent ++ freed))
  end.

(** ** Life cycle *)

Definition reset_callbacks (s : pa_stream) : pa_stream := set_callbacks no_callbacks s.

(** [stream_unlink] detaches the stream from its context (pending
    operations, pending replies, channel table, stream list, timer), none of
    which is stream data here, and clears the callbacks. *)
Definition stream_unlink (s : pa_stream) : pa_stream := reset_callbacks s.

Definition notify (cb : option Z) (userdata : Z) : list event :=
  match cb with
  | Some f => [ev_notify f userdata]
  | None => []
  end.

Definition pa_stream_set_state (s : pa_stream) (st : pa_stream_state_t)
    : pa_stream * list event :=
  if bool_decide (state s = st) then (s, []) else
  let s1 := set_state st s in
  let ev := notify (state_callback (callbacks s1)) (state_userdata (callbacks s1)) in
  if bool_decide (st = PA_STREAM_FAILED) || bool_decide (st = PA_STREAM_TERMINATED)
  then (stream_unlink s1, ev)
  else (s1, ev).

(** Modelled from the spec: [pa_context_fail] belongs to the context code.
    "Protocol errors fail the entire context, not just the stream": every
    stream of the context, this one included, is moved to [failed]. *)
Definition pa_context_fail (s : pa_stream) : pa_stream * list event :=
  pa_stream_set_state s PA_STREAM_FAILED.

(** [pa_stream_new_with_proplist] once its validity checks on the sample
    specification, the channel map and the name have passed. *)
Definition pa_stream_new (c : pa_context) (ss : pa_sample_spec) : pa_stream :=
  {| context := c;
     direction := PA_STREAM_NODIRECTION;
     state := PA_STREAM_UNCONNECTED;
     flags := [];
     sample_spec := ss;
     channel := 0;
     requested_bytes := 0;
     buffer_attr :=
       {| maxlength := 0;
          tlength := u32 (pa_usec_to_bytes (250 * PA_USEC_PER_MSEC) ss);
          prebuf := 0; minreq := 0; fragsize := 0 |};
     suspended := false;
     corked := false;
     peek_memchunk := {| memchunk.memblock := None; memchunk.index := 0;
                         memchunk.length := 0 |};
     peek_data := None;
     record_memblockq := [];
     timing_info :=
       {| timestamp := 0; synchronized_clocks := false; sink_usec := 0;
          source_usec := 0; transport_usec := 0; playing := false;
          write_index_corrupt := false; write_index := 0;
          read_index_corrupt := false; read_index := 0;
          configured_sink_usec := 0; configured_source_usec := 0;
          since_underrun := 0 |};
     timing_info_valid := false;
     previous_time := 0;
     read_index_not_before := 0;
     write_index_not_before := 0;
     write_index_corrections := replicate PA_MAX_WRITE_INDEX_CORRECTIONS zero_correction;
     current_write_index_correction := 0;
     auto_timing_update_requested := false;
     callbacks := no_callbacks;
     smoother := false |}.

(** ** Buffer attributes of legacy servers *)

(** The guards are transcribed as C parses them: [!attr->maxlength <= 0] is
    [(!attr->maxlength) <= 0]. *)
Definition automatic_buffer_attr (s : pa_stream) (attr : pa_buffer_attr)
    (ss : pa_sample_spec) : pa_buffer_attr :=
  if 13 <=? version (context s) then attr else
  let attr :=
    if c_not (maxlength attr) <=? 0
    then set_maxlength (4 * 1024 * 1024) attr else attr in
  let attr :=
    if c_not (tlength attr) <=? 0
    then set_tlength (u32 (pa_usec_to_bytes (250 * PA_USEC_PER_MSEC) ss)) attr
    else attr in
  let attr :=
    if c_not (minreq attr) <=? 0
    then set_minreq (tlength attr / 5) attr else attr in
  let attr :=
    if c_true (c_not (prebuf attr))
    then set_prebuf (tlength attr) attr else attr in
  if c_true (c_not (fragsize attr))
  then set_fragsize (tlength attr) attr else attr.

(** [create_stream], behind [pa_stream_connect_playback] and
    [pa_stream_connect_record].  The checks on the volume, the
    synchronisation partner and the monitored input concern data that is
    not modelled, and the check for unknown flag bits is met by the type of
    [fl]; the device name and the property list are left out of the
    command. *)
Definition create_stream (dir : pa_stream_direction_t) (s : pa_stream)
    (attr : option pa_buffer_attr) (fl : list pa_stream_flags_t)
    : result (pa_stream * list event) :=
  if negb (bool_decide (state s = PA_STREAM_UNCONNECTED)) then Err PA_ERR_BADSTATE else
  if negb ((12 <=? version (context s)) || negb (bool_decide (PA_STREAM_VARIABLE_RATE ∈ fl)))
  then Err PA_ERR_NOTSUPPORTED else
  if negb ((13 <=? version (context s)) || negb (bool_decide (PA_STREAM_PEAK_DETECT ∈ fl)))
  then Err PA_ERR_NOTSUPPORTED else
  if negb (bool_decide (dir = PA_STREAM_PLAYBACK)
           || negb (bool_decide (PA_STREAM_START_MUTED ∈ fl)))
  then Err PA_ERR_INVALID else
  if negb (bool_decide (dir = PA_STREAM_RECORD)
           || negb (bool_decide (PA_STREAM_PEAK_DETECT ∈ fl)))
  then Err PA_ERR_INVALID else
  let s1 := set_corked (bool_decide (PA_STREAM_START_CORKED ∈ fl))
              (set_flags fl (set_direction dir s)) in
  let s2 := match attr with
            | Some a => set_buffer_attr a s1
            | None => s1
            end in
  let s3 := set_buffer_attr (automatic_buffer_attr s2 (buffer_attr s2) (sample_spec s2)) s2 in
  let s4 := if bool_decide (PA_STREAM_INTERPOLATE_TIMING ∈ fl)
            then set_smoother true s3 else s3 in
  let '(t, s5) := pa_tagstruct_command s4 in
  let command := if is_playback s5 then PA_COMMAND_CREATE_PLAYBACK_STREAM
                 else PA_COMMAND_CREATE_RECORD_STREAM in
  let '(s6, ev) := pa_stream_set_state s5 PA_STREAM_CREATING in
  Ok (s6, ev_send_tagstruct command t :: ev).

Definition pa_stream_connect_playback (s : pa_stream) (attr : option pa_buffer_attr)
    (fl : list pa_stream_flags_t) : result (pa_stream * list event) :=
  create_stream PA_STREAM_PLAYBACK s attr fl.

Definition pa_stream_connect_record (s : pa_stream) (attr : option pa_buffer_attr)
    (fl : list pa_stream_flags_t) : result (pa_stream * list event) :=
  create_stream PA_STREAM_RECORD s attr fl.

(** Modelled from the spec: upload streams ("direction ∈ {playback, record,
    upload}") are connected by the sample cache code, outside stream.c; the
    stream records its direction and enters [creating]. *)
Definition pa_stream_connect_upload (s : pa_stream) : result (pa_stream * list event) :=
  if negb (bool_decide (state s = PA_STREAM_UNCONNECTED)) then Err PA_ERR_BADSTATE else
  let '(t, s1) := pa_tagstruct_command (set_direction PA_STREAM_UPLOAD s) in
  let '(s2, ev) := pa_stream_set_state s1 PA_STREAM_CREATING in
  Ok (s2, ev).

Definition create_stream_complete (s : pa_stream) : pa_stream * list event :=
  let '(s1, ev1) := pa_stream_set_state s PA_STREAM_READY in
  let ev2 :=
    match write_callback (callbacks s1) with
    | Some f =>
        if 0 <? requested_bytes s1
        then [ev_request f (requested_bytes s1) (write_userdata (callbacks s1))]
        else []
    | None => []
    end in
  if has_flag PA_STREAM_AUTO_TIMING_UPDATE s1 then
    let '(s2, ev3) := request_auto_timing_update s1 true in
    (s2, ev1 ++ ev2 ++ ev3)
  else (s1, ev1 ++ ev2).

Definition pa_create_stream_callback (s : pa_stream) (a : answer create_reply)
    : pa_stream * list event :=
  match a with
  | answer_error true => (s, [])
  | answer_error false => pa_stream_set_state s PA_STREAM_FAILED
  | answer_malformed => pa_context_fail s
  | answer_reply r =>
      let s1 := set_channel (cr_channel r) s in
      let s2 := if negb (is_record s1)
                then set_requested_bytes (cr_requested_bytes r) s1 else s1 in
      let s3 :=
        if 9 <=? version (context s2) then
          if is_playback s2 then
            set_buffer_attr
              (set_minreq (cr_minreq r) (set_prebuf (cr_prebuf r)
                 (set_tlength (cr_tlength r)
                    (set_maxlength (cr_maxlength r) (buffer_attr s2))))) s2
          else if is_record s2 then
            set_buffer_attr
              (set_fragsize (cr_fragsize r)
                 (set_maxlength (cr_maxlength r) (buffer_attr s2))) s2
          else s2
        else s2 in
      let not_upload := bool_decide (direction s3 <> PA_STREAM_UPLOAD) in
      let s4 :=
        if (12 <=? version (context s3)) && not_upload
        then set_sample_spec (cr_sample_spec r) (set_suspended (cr_suspended r) s3)
        else s3 in
      let s5 :=
        if (13 <=? version (context s4)) && not_upload then
          if is_record s4
          then set_timing_info (set_configured_source_usec (cr_usec r) (timing_info s4)) s4
          else set_timing_info (set_configured_sink_usec (cr_usec r) (timing_info s4)) s4
        else s4 in
      let s6 := if is_record s5 then set_record_memblockq [] s5 else s5 in
      create_stream_complete s6
  end.

Definition pa_stream_disconnect_callback (s : pa_stream) (a : answer unit)
    : pa_stream * list event :=
  match a with
  | answer_error true => (s, [])
  | answer_error false => pa_stream_set_state s PA_STREAM_FAILED
  | answer_malformed => pa_context_fail s
  | answer_reply _ => pa_stream_set_state s PA_STREAM_TERMINATED
  end.

(** ** Latency replies *)

(** The effect of one saved correction on the write index of the
    snapshot. *)
Definition apply_correction (c : pa_index_correction) (i : pa_timing_info)
    : pa_timing_info :=
  if corrupt c then set_write_index_corrupt true (set_write_index 0 i)
  else if absolute c then set_write_index_corrupt false (set_write_index (value c) i)
  else if negb (write_index_corrupt i)
       then set_write_index (s64 (write_index i + value c)) i
       else i.

(** The loop [for (n = 0, j = current+1; n < N; n++, j = (j+1) % N)] over the
    saved corrections; [n] counts the iterations that remain. *)
Fixpoint correction_walk (oob : pa_index_correction) (ring : list pa_index_correction)
    (n j : nat) (ctag : Z) (i : pa_timing_info) : pa_timing_info :=
  match n with
  | O => i
  | S n' =>
      let c := correction_at oob ring j in
      let j' := ((j + 1) mod PA_MAX_WRITE_INDEX_CORRECTIONS)%nat in
      if negb (valid c) || (tag c <? ctag)
      then correction_walk oob ring n' j' ctag i
      else correction_walk oob ring n' j' (u32 (tag c + 1)) (apply_correction c i)
  end.

(** The indices the loop reads, in order. *)
Fixpoint walk_indices (n j : nat) : list nat :=
  match n with
  | O => []
  | S n' => j :: walk_indices n' ((j + 1) mod PA_MAX_WRITE_INDEX_CORRECTIONS)%nat
  end.

(** "Clear old correction entries". *)
Definition clear_old_corrections (t : Z) (ring : list pa_index_correction)
    : list pa_index_correction :=
  (fun c => if valid c && (tag c <=? t) then set_valid false c else c) <$> ring.

(** Modelled from the spec: the record queue is a collaborator
    ("Record queue: new, peek() -> chunk?, drop(n), length()"); it is the
    list of queued chunks, oldest first. *)
Definition pa_memblockq_get_length (q : list pa_memchunk) : Z :=
  foldr (fun c acc => memchunk.length c + acc) 0 q.

(** Modelled from the spec: see [pa_memblockq_get_length]. *)
Definition pa_memblockq_peek (q : list pa_memchunk) : option pa_memchunk := head q.

(** Modelled from the spec: see [pa_memblockq_get_length]. *)
Fixpoint pa_memblockq_drop (q : list pa_memchunk) (n : Z) : list pa_memchunk :=
  match q with
  | [] => []
  | c :: q' =>
      if n <? memchunk.length c then
        {| memchunk.memblock := memchunk.memblock c;
           memchunk.index := memchunk.index c + n;
           memchunk.length := memchunk.length c - n |} :: q'
      else pa_memblockq_drop q' (n - memchunk.length c)
  end.

(** The end of [stream_get_timing_info_callback], after the snapshot has
    been dealt with. *)
Definition timing_info_finish (s : pa_stream) (o : pa_operation) : pa_stream * list event :=
  let s1 := set_auto_timing_update_requested false s in
  let ev1 := notify (latency_update_callback (callbacks s1))
                    (latency_update_userdata (callbacks s1)) in
  let ev2 :=
    match op_callback o with
    | Some f => if is_ready s1 then [ev_success f (timing_info_valid s1) (op_userdata o)]
                else []
    | None => []
    end in
  (s1, ev1 ++ ev2).

(** The fields a well-formed reply is parsed into, with the playback state
    derived from it. *)
Definition store_reply (s : pa_stream) (r : latency_reply) : pa_timing_info :=
  let v13_playback := (13 <=? version (context s)) && is_playback s in
  let underrun_for := if v13_playback then r_underrun_for r else 0 in
  let playing_for := if v13_playback then r_playing_for r else 0 in
  let i := set_read_index (r_read_index r) (set_write_index (r_write_index r)
             (set_source_usec (r_source_usec r)
                (set_sink_usec (r_sink_usec r) (timing_info s)))) in
  set_since_underrun (if r_playing r then playing_for else underrun_for)
    (set_playing (r_playing r) i).

(** "Calculate timestamps".  Time stamps are compared and subtracted as
    microsecond counts; [now] is the time of day on receipt. *)
Definition estimate_transport (s : pa_stream) (r : latency_reply) (now : Z)
    (i : pa_timing_info) : pa_timing_info :=
  if (r_local r <=? r_remote r) && (r_remote r <=? now) then
    set_timestamp (r_remote r) (set_synchronized_clocks true
      (set_transport_usec
         (if is_playback s then Z.abs (r_remote r - r_local r)
          else Z.abs (now - r_remote r)) i))
  else
    let tr := Z.abs (now - r_local r) / 2 in
    set_timestamp (r_local r + tr) (set_synchronized_clocks false
      (set_transport_usec tr i)).

(** "Invalidate read and write indexes if necessary". *)
Definition invalidate_by_barriers (s : pa_stream) (t : Z) (i : pa_timing_info)
    : pa_timing_info :=
  let i := if t <? read_index_not_before s then set_read_index_corrupt true i else i in
  if t <? write_index_not_before s then set_write_index_corrupt true i else i.

(** "Write index correction", for playback streams. *)
Definition write_index_correction (oob : pa_index_correction) (s : pa_stream) (t : Z)
    (i : pa_timing_info) : pa_timing_info :=
  if is_playback s then
    correction_walk oob (write_index_corrections s) PA_MAX_WRITE_INDEX_CORRECTIONS
      (current_write_index_correction s + 1) t i
  else i.

(** "Read index correction", for record streams. *)
Definition read_index_correction (s : pa_stream) (i : pa_timing_info) : pa_timing_info :=
  if is_record s then
    if negb (read_index_corrupt i)
    then set_read_index
           (s64 (read_index i - pa_memblockq_get_length (record_memblockq s))) i
    else i
  else i.

(** The state the reply handler starts from: the snapshot is flagged
    invalid and both index flags are cleared. *)
Definition snapshot_reset (s : pa_stream) : pa_stream :=
  set_timing_info
    (set_read_index_corrupt false (set_write_index_corrupt false (timing_info s)))
    (set_timing_info_valid false s).

(** [stream_get_timing_info_callback] for an operation still attached to
    its stream.  [t] is the tag of the answered command and [oob] what a
    read past the end of the correction array finds.  The smoother is a
    collaborator whose state is not stream data; the calls that feed it are
    left out. *)
Definition stream_get_timing_info_callback (oob : pa_index_correction) (s : pa_stream)
    (o : pa_operation) (t : Z) (a : answer latency_reply) (now : Z)
    : pa_stream * list event :=
  let s0 := snapshot_reset s in
  match a with
  | answer_error true => (s0, [])
  | answer_error false => timing_info_finish s0 o
  | answer_malformed => pa_context_fail s0
  | answer_reply r =>
      let i := store_reply s0 r in
      let i := estimate_transport s0 r now i in
      let i := invalidate_by_barriers s0 t i in
      let i := write_index_correction oob s0 t i in
      let i := read_index_correction s0 i in
      let s1 := set_timing_info i (set_timing_info_valid true s0) in
      let s2 :=
        if is_playback s1
        then set_write_index_corrections
               (clear_old_corrections t (write_index_corrections s1)) s1
        else s1 in
      timing_info_finish s2 o
  end.

(** ** Time query *)

Definition calc_time (s : pa_stream) (ignore_transport : bool) : Z :=
  let i := timing_info s in
  let running := negb (corked s) && negb (suspended s) in
  let minus_sink (usec : Z) := if usec <=? sink_usec i then 0 else usec - sink_usec i in
  if is_playback s then
    let usec := pa_bytes_to_usec (if read_index i <? 0 then 0 else read_index i)
                  (sample_spec s) in
    if running then
      minus_sink (if negb ignore_transport then u64 (usec + transport_usec i) else usec)
    else usec
  else if is_record s then
    let usec := pa_bytes_to_usec (if write_index i <? 0 then 0 else write_index i)
                  (sample_spec s) in
    if running then
      let usec := if negb ignore_transport then u64 (usec + transport_usec i) else usec in
      minus_sink (u64 (usec + source_usec i))
    else usec
  else 0.

(** [pa_stream_get_time]; [smoothed] is what [pa_smoother_get] answers at
    the time of the call, used when the stream has a smoother. *)
Definition pa_stream_get_time (s : pa_stream) (smoothed : Z) : result (Z * pa_stream) :=
  if negb (is_ready s) then Err PA_ERR_BADSTATE else
  if negb (bool_decide (direction s <> PA_STREAM_UPLOAD)) then Err PA_ERR_BADSTATE else
  if negb (timing_info_valid s) then Err PA_ERR_NODATA else
  if negb (negb (is_playback s) || negb (read_index_corrupt (timing_info s)))
  then Err PA_ERR_NODATA else
  if negb (negb (is_record s) || negb (write_index_corrupt (timing_info s)))
  then Err PA_ERR_NODATA else
  let usec := if smoother s then smoothed else calc_time s false in
  if negb (has_flag PA_STREAM_NOT_MONOTONOUS s) then
    if usec <? previous_time s then Ok (previous_time s, s)
    else Ok (usec, set_previous_time usec s)
  else Ok (usec, s).

(** ** Read pipeline *)

(** What [pa_stream_peek] stores through [data] and [length]. *)
Definition peeked (s : pa_stream) : option Z * Z :=
  ((fun p => p + memchunk.index (peek_memchunk s)) <$> peek_data s,
   memchunk.length (peek_memchunk s)).

Definition pa_stream_peek (s : pa_stream) : result ((option Z * Z) * pa_stream) :=
  if negb (is_ready s) then Err PA_ERR_BADSTATE else
  if negb (is_record s) then Err PA_ERR_BADSTATE else
  match memchunk.memblock (peek_memchunk s) with
  | None =>
      match pa_memblockq_peek (record_memblockq s) with
      | None => Ok ((None, 0), s)
      | Some c =>
          let s1 := set_peek_data (data_ptr <$> memchunk.memblock c)
                      (set_peek_memchunk c s) in
          Ok (peeked s1, s1)
      end
  | Some _ => Ok (peeked s, s)
  end.

Definition pa_stream_drop (s : pa_stream) : result pa_stream :=
  if negb (is_ready s) then Err PA_ERR_BADSTATE else
  if negb (is_record s) then Err PA_ERR_BADSTATE else
  if negb (bool_decide (memchunk.memblock (peek_memchunk s) <> None))
  then Err PA_ERR_BADSTATE else
  let n := memchunk.length (peek_memchunk s) in
  let s1 := set_record_memblockq (pa_memblockq_drop (record_memblockq s) n) s in
  let s2 :=
    if timing_info_valid s1 && negb (read_index_corrupt (timing_info s1))
    then set_timing_info
           (set_read_index (s64 (read_index (timing_info s1) + n)) (timing_info s1)) s1
    else s1 in
  Ok (set_peek_memchunk
        {| memchunk.memblock := None; memchunk.index := 0; memchunk.length := 0 |} s2).

(** ** Server events

    Each handler is given the stream that the context's channel table holds
    for the channel named in a well-formed event packet. *)

Definition pa_command_request (s : pa_stream) (bytes : Z) : pa_stream * list event :=
  if negb (is_ready s) then (s, []) else
  let s1 := set_requested_bytes (u32 (requested_bytes s + bytes)) s in
  match write_callback (callbacks s1) with
  | Some f =>
      if 0 <? requested_bytes s1
      then (s1, [ev_request f (requested_bytes s1) (write_userdata (callbacks s1))])
      else (s1, [])
  | None => (s1, [])
  end.

Definition pa_command_stream_started (s : pa_stream) : pa_stream * list event :=
  if version (context s) <? 13 then pa_context_fail s else
  if negb (is_ready s) then (s, []) else
  let '(s1, ev) := request_auto_timing_update s true in
  (s1, ev ++ notify (started_callback (callbacks s1)) (suspended_userdata (callbacks s1))).

Definition pa_command_stream_suspended (s : pa_stream) (susp : bool)
    : pa_stream * list event :=
  if version (context s) <? 12 then pa_context_fail s else
  if negb (is_ready s) then (s, []) else
  let '(s1, ev) := request_auto_timing_update (set_suspended susp s) true in
  (s1, ev ++ notify (suspended_callback (callbacks s1)) (suspended_userdata (callbacks s1))).

(** The device name and index delivered with a move are not stream data
    here; [attr] and [usec] are transmitted from protocol version 13 on. *)
Definition pa_command_stream_moved (s : pa_stream) (susp : bool) (attr : pa_buffer_attr)
    (usec : Z) : pa_stream * list event :=
  if version (context s) <? 12 then pa_context_fail s else
  if negb (is_ready s) then (s, []) else
  let s1 :=
    if 13 <=? version (context s) then
      set_buffer_attr attr
        (if is_record s
         then set_timing_info (set_configured_source_usec usec (timing_info s)) s
         else set_timing_info (set_configured_sink_usec usec (timing_info s)) s)
    else s in
  let '(s2, ev) := request_auto_timing_update (set_suspended susp s1) true in
  (s2, ev ++ notify (moved_callback (callbacks s2)) (moved_userdata (callbacks s2))).

Definition pa_command_overflow_or_underflow (s : pa_stream) (overflow : bool)
    : pa_stream * list event :=
  if negb (is_ready s) then (s, []) else
  let '(s1, ev) := request_auto_timing_update s true in
  if overflow
  then (s1, ev ++ notify (overflow_callback (callbacks s1))
                         (overflow_userdata (callbacks s1)))
  else (s1, ev ++ notify (underflow_callback (callbacks s1))
                         (underflow_userdata (callbacks s1))).

Definition pa_command_stream_killed (s : pa_stream) : pa_stream * list event :=
  if negb (is_ready s) then (s, []) else pa_stream_set_state s PA_STREAM_FAILED.

(** ** Registration of callbacks *)

Definition is_terminal (s : pa_stream) : bool :=
  bool_decide (state s = PA_STREAM_TERMINATED) || bool_decide (state s = PA_STREAM_FAILED).

Definition pa_stream_set_read_callback (s : pa_stream) (cb : option Z) (userdata : Z) :=
  if is_terminal s then s else
  set_callbacks (set_read_userdata userdata (set_read_callback cb (callbacks s))) s.

Definition pa_stream_set_write_callback (s : pa_stream) (cb : option Z) (userdata : Z) :=
  if is_terminal s then s else
  set_callbacks (set_write_userdata userdata (set_write_callback cb (callbacks s))) s.

Definition pa_stream_set_state_callback (s : pa_stream) (cb : option Z) (userdata : Z) :=
  if is_terminal s then s else
  set_callbacks (set_state_userdata userdata (set_state_callback cb (callbacks s))) s.

Definition pa_stream_set_overflow_callback (s : pa_stream) (cb : option Z) (userdata : Z) :=
  if is_terminal s then s else
  set_callbacks (set_overflow_userdata userdata (set_overflow_callback cb (callbacks s))) s.

Definition pa_stream_set_underflow_callback (s : pa_stream) (cb : option Z) (userdata : Z) :=
  if is_terminal s then s else
  set_callbacks
    (set_underflow_userdata userdata (set_underflow_callback cb (callbacks s))) s.

Definition pa_stream_set_latency_update_callback (s : pa_stream) (cb : option Z)
    (userdata : Z) :=
  if is_terminal s then s else
  set_callbacks
    (set_latency_update_userdata userdata
       (set_latency_update_callback cb (callbacks s))) s.

Definition pa_stream_set_moved_callback (s : pa_stream) (cb : option Z) (userdata : Z) :=
  if is_terminal s then s else
  set_callbacks (set_moved_userdata userdata (set_moved_callback cb (callbacks s))) s.

Definition pa_stream_set_suspended_callback (s : pa_stream) (cb : option Z) (userdata : Z) :=
  if is_terminal s then s else
  set_callbacks
    (set_suspended_userdata userdata (set_suspended_callback cb (callbacks s))) s.

Definition pa_stream_set_started_callback (s : pa_stream) (cb : option Z) (userdata : Z) :=
  if is_terminal s then s else
  set_callbacks (set_started_userdata userdata (set_started_callback cb (callbacks s))) s.

(** ** Control operations *)

Definition stream_send_simple_command (s : pa_stream) (command : pa_command)
    (cb : option Z) (userdata : Z) : result (pa_operation * pa_stream * list event) :=
  if negb (is_ready s) then Err PA_ERR_BADSTATE else
  let '(t, s1) := pa_tagstruct_command s in
  Ok ({| op_tag := t; op_callback := cb; op_userdata := userdata |}, s1,
      [ev_send_tagstruct command t]).

Definition pa_stream_drain (s : pa_stream) (cb : option Z) (userdata : Z)
    : result (pa_operation * pa_stream * list event) :=
  if negb (is_ready s) then Err PA_ERR_BADSTATE else
  if negb (is_playback s) then Err PA_ERR_BADSTATE else
  let '(t, s1) := pa_tagstruct_command s in
  Ok ({| op_tag := t; op_callback := cb; op_userdata := userdata |}, s1,
      [ev_send_tagstruct PA_COMMAND_DRAIN_PLAYBACK_STREAM t]).

Definition pa_stream_cork (s : pa_stream) (b : bool) (cb : option Z) (userdata : Z)
    : result (pa_operation * pa_stream * list event) :=
  if negb (is_ready s) then Err PA_ERR_BADSTATE else
  if negb (bool_decide (direction s <> PA_STREAM_UPLOAD)) then Err PA_ERR_BADSTATE else
  let '(t, s1) := pa_tagstruct_command (set_corked b s) in
  let o := {| op_tag := t; op_callback := cb; op_userdata := userdata |} in
  let command := if is_playback s1 then PA_COMMAND_CORK_PLAYBACK_STREAM
                 else PA_COMMAND_CORK_RECORD_STREAM in
  let '(s2, ev) := if is_playback s1 then invalidate_indexes s1 true false
                   else (s1, []) in
  Ok (o, s2, ev_send_tagstruct command t :: ev).

Definition pa_stream_flush (s : pa_stream) (cb : option Z) (userdata : Z)
    : result (pa_operation * pa_stream * list event) :=
  if negb (is_ready s) then Err PA_ERR_BADSTATE else
  if negb (bool_decide (direction s <> PA_STREAM_UPLOAD)) then Err PA_ERR_BADSTATE else
  let command := if is_playback s then PA_COMMAND_FLUSH_PLAYBACK_STREAM
                 else PA_COMMAND_FLUSH_RECORD_STREAM in
  match stream_send_simple_command s command cb userdata with
  | Err e => Err e
  | Ok (o, s1, ev1) =>
      if is_playback s1 then
        let s2 := if valid (current_correction s1)
                  then alter_current_correction (set_corrupt true) s1 else s1 in
        let s3 := if timing_info_valid s2
                  then set_timing_info (set_write_index_corrupt true (timing_info s2)) s2
                  else s2 in
        let '(s4, ev2) := if 0 <? prebuf (buffer_attr s3)
                          then invalidate_indexes s3 true false
                          else request_auto_timing_update s3 true in
        Ok (o, s4, ev1 ++ ev2)
      else
        let '(s2, ev2) := invalidate_indexes s1 false true in
        Ok (o, s2, ev1 ++ ev2)
  end.

Definition pa_stream_prebuf (s : pa_stream) (cb : option Z) (userdata : Z)
    : result (pa_operation * pa_stream * list event) :=
  if negb (is_ready s) then Err PA_ERR_BADSTATE else
  if negb (is_playback s) then Err PA_ERR_BADSTATE else
  if negb (0 <? prebuf (buffer_attr s)) then Err PA_ERR_BADSTATE else
  match stream_send_simple_command s PA_COMMAND_PREBUF_PLAYBACK_STREAM cb userdata with
  | Err e => Err e
  | Ok (o, s1, ev1) =>
      let '(s2, ev2) := invalidate_indexes s1 true false in
      Ok (o, s2, ev1 ++ ev2)
  end.

Definition pa_stream_trigger (s : pa_stream) (cb : option Z) (userdata : Z)
    : result (pa_operation * pa_stream * list event) :=
  if negb (is_ready s) then Err PA_ERR_BADSTATE else
  if negb (is_playback s) then Err PA_ERR_BADSTATE else
  if negb (0 <? prebuf (buffer_attr s)) then Err PA_ERR_BADSTATE else
  match stream_send_simple_command s PA_COMMAND_TRIGGER_PLAYBACK_STREAM cb userdata with
  | Err e => Err e
  | Ok (o, s1, ev1) =>
      let '(s2, ev2) := invalidate_indexes s1 true false in
      Ok (o, s2, ev1 ++ ev2)
  end.

(** ** Remaining replies and requests that assign stream data *)

Definition stream_set_buffer_attr_callback (s : pa_stream) (a : answer pa_buffer_attr)
    : pa_stream * list event :=
  match a with
  | answer_error _ => (s, [])
  | answer_malformed => pa_context_fail s
  | answer_reply r =>
      if is_playback s then
        (set_buffer_attr
           (set_minreq (minreq r) (set_prebuf (prebuf r) (set_tlength (tlength r)
              (set_maxlength (maxlength r) (buffer_attr s))))) s, [])
      else if is_record s then
        (set_buffer_attr
           (set_fragsize (fragsize r) (set_maxlength (maxlength r) (buffer_attr s))) s, [])
      else (s, [])
  end.

(** [new_rate] is the rate that [pa_stream_update_sample_rate] stored in the
    operation. *)
Definition stream_update_sample_rate_callback (s : pa_stream) (new_rate : Z)
    (a : answer unit) : pa_stream * list event :=
  match a with
  | answer_error true => (s, [])
  | answer_malformed => pa_context_fail s
  | _ =>
      (set_sample_spec
         {| format := format (sample_spec s); rate := new_rate;
            channels := channels (sample_spec s) |} s, [])
  end.

(** Modelled from the spec: the context's handler for incoming sample data
    is outside stream.c; it appends the chunk to the "local queue" of the
    record stream the data is addressed to. *)
Definition pa_stream_record_data (s : pa_stream) (c : pa_memchunk) : pa_stream :=
  set_record_memblockq (record_memblockq s ++ [c]) s.

(** ** Runs of a stream

    Everything that can happen to a stream: a call of the library by the
    application, or a packet delivered by the context. *)

Inductive callback_kind :=
| on_read | on_write | on_state | on_overflow | on_underflow
| on_latency_update | on_moved | on_suspended | on_started.

Inductive action :=
| call_connect_playback (attr : option pa_buffer_attr) (fl : list pa_stream_flags_t)
| call_connect_record (attr : option pa_buffer_attr) (fl : list pa_stream_flags_t)
| call_connect_upload
| recv_create_answer (a : answer create_reply)
| recv_disconnect_answer (a : answer unit)
| call_write (len : Z) (free_cb : option Z) (offset : Z) (seek : pa_seek_mode_t)
| call_peek
| call_drop
| recv_record_data (c : pa_memchunk)
| call_update_timing_info (cb : option Z) (userdata : Z)
| recv_timing_answer (oob : pa_index_correction) (o : pa_operation) (t : Z)
    (a : answer latency_reply) (now : Z)
| call_get_time (smoothed : Z)
| call_cork (b : bool) (cb : option Z) (userdata : Z)
| call_flush (cb : option Z) (userdata : Z)
| call_prebuf (cb : option Z) (userdata : Z)
| call_trigger (cb : option Z) (userdata : Z)
| call_drain (cb : option Z) (userdata : Z)
| recv_request (bytes : Z)
| recv_started
| recv_suspended (susp : bool)
| recv_moved (susp : bool) (attr : pa_buffer_attr) (usec : Z)
| recv_overflow_or_underflow (overflow : bool)
| recv_killed
| recv_buffer_attr_answer (a : answer pa_buffer_attr)
| recv_sample_rate_answer (new_rate : Z) (a : answer unit)
| call_set_callback (k : callback_kind) (cb : option Z) (userdata : Z)
| send_other_command.

Definition set_callback (k : callback_kind) (s : pa_stream) (cb : option Z) (userdata : Z)
    : pa_stream :=
  match k with
  | on_read => pa_stream_set_read_callback s cb userdata
  | on_write => pa_stream_set_write_callback s cb userdata
  | on_state => pa_stream_set_state_callback s cb userdata
  | on_overflow => pa_stream_set_overflow_callback s cb userdata
  | on_underflow => pa_stream_set_underflow_callback s cb userdata
  | on_latency_update => pa_stream_set_latency_update_callback s cb userdata
  | on_moved => pa_stream_set_moved_callback s cb userdata
  | on_suspended => pa_stream_set_suspended_callback s cb userdata
  | on_started => pa_stream_set_started_callback s cb userdata
  end.

(** A call that fails its checks, and a write whose loop does not finish,
    leave the stream as it was. *)
Definition settle {A : Type} (s : pa_stream) (r : result (A * pa_stream * list event))
    : pa_stream * list event :=
  match r with
  | Ok (_, s', ev) => (s', ev)
  | Err _ => (s, [])
  end.

Definition settle_plain (s : pa_stream) (r : result (pa_stream * list event))
    : pa_stream * list event :=
  match r with
  | Ok (s', ev) => (s', ev)
  | Err _ => (s, [])
  end.

(** The create answer is dispatched only while the stream is [creating].
    [send_other_command] stands for any request that only sends a command
    on the stream's context and so advances the tag counter
    ([pa_stream_set_name], [pa_stream_set_buffer_attr],
    [pa_stream_update_sample_rate], the property list updates,
    [pa_stream_disconnect], and the requests of other streams of the
    context). *)
Definition perform (a : action) (s : pa_stream) : pa_stream * list event :=
  match a with
  | call_connect_playback attr fl => settle_plain s (pa_stream_connect_playback s attr fl)
  | call_connect_record attr fl => settle_plain s (pa_stream_connect_record s attr fl)
  | call_connect_upload => settle_plain s (pa_stream_connect_upload s)
  | recv_create_answer a =>
      if bool_decide (state s = PA_STREAM_CREATING)
      then pa_create_stream_callback s a else (s, [])
  | recv_disconnect_answer a => pa_stream_disconnect_callback s a
  | call_write len free_cb offset seek =>
      match pa_stream_write s len free_cb offset seek with
      | Some r => settle_plain s r
      | None => (s, [])
      end
  | call_peek =>
      match pa_stream_peek s with
      | Ok (_, s') => (s', [])
      | Err _ => (s, [])
      end
  | call_drop =>
      match pa_stream_drop s with
      | Ok s' => (s', [])
      | Err _ => (s, [])
      end
  | recv_record_data c => (pa_stream_record_data s c, [])
  | call_update_timing_info cb ud => settle s (pa_stream_update_timing_info s cb ud)
  | recv_timing_answer oob o t a now => stream_get_timing_info_callback oob s o t a now
  | call_get_time smoothed =>
      match pa_stream_get_time s smoothed with
      | Ok (_, s') => (s', [])
      | Err _ => (s, [])
      end
  | call_cork b cb ud => settle s (pa_stream_cork s b cb ud)
  | call_flush cb ud => settle s (pa_stream_flush s cb ud)
  | call_prebuf cb ud => settle s (pa_stream_prebuf s cb ud)
  | call_trigger cb ud => settle s (pa_stream_trigger s cb ud)
  | call_drain cb ud => settle s (pa_stream_drain s cb ud)
  | recv_request bytes => pa_command_request s bytes
  | recv_started => pa_command_stream_started s
  | recv_suspended susp => pa_command_stream_suspended s susp
  | recv_moved susp attr usec => pa_command_stream_moved s susp attr usec
  | recv_overflow_or_underflow overflow => pa_command_overflow_or_underflow s overflow
  | recv_killed => pa_command_stream_killed s
  | recv_buffer_attr_answer a => stream_set_buffer_attr_callback s a
  | recv_sample_rate_answer new_rate a => stream_update_sample_rate_callback s new_rate a
  | call_set_callback k cb ud => (set_callback k s cb ud, [])
  | send_other_command => ((pa_tagstruct_command s).2, [])
  end.

(** The stream after a sequence of actions, and the log of their effects. *)
Definition run (acts : list action) (s : pa_stream) : pa_stream :=
  foldl (fun s a => (perform a s).1) s acts.

Definition run_log (acts : list action) (s : pa_stream) : list event :=
  (foldl (fun '(s, log) a => let '(s', ev) := perform a s in (s', log ++ ev))
         (s, []) acts).2.

(** The streams the library can build. *)
Definition reachable (s : pa_stream) : Prop :=
  exists c ss acts, s = run acts (pa_stream_new c ss).


(** ** Queries on a connected stream *)

Definition pa_stream_writable_size (s : pa_stream) : result Z :=
  if negb (is_ready s) then Err PA_ERR_BADSTATE else
  if negb (bool_decide (direction s <> PA_STREAM_RECORD)) then Err PA_ERR_BADSTATE else
  Ok (requested_bytes s).

Definition pa_stream_readable_size (s : pa_stream) : result Z :=
  if negb (is_ready s) then Err PA_ERR_BADSTATE else
  if negb (is_record s) then Err PA_ERR_BADSTATE else
  Ok (pa_memblockq_get_length (record_memblockq s)).

Definition pa_stream_get_timing_info (s : pa_stream) : result pa_timing_info :=
  if negb (is_ready s) then Err PA_ERR_BADSTATE else
  if negb (bool_decide (direction s <> PA_STREAM_UPLOAD)) then Err PA_ERR_BADSTATE else
  if negb (timing_info_valid s) then Err PA_ERR_BADSTATE else
  Ok (timing_info s).

Definition pa_stream_get_buffer_attr (s : pa_stream) : result pa_buffer_attr :=
  if negb (is_ready s) then Err PA_ERR_BADSTATE else
  if negb (bool_decide (direction s <> PA_STREAM_UPLOAD)) then Err PA_ERR_BADSTATE else
  if negb (9 <=? version (context s)) then Err PA_ERR_NOTSUPPORTED else
  Ok (buffer_attr s).

Definition pa_stream_is_suspended (s : pa_stream) : result bool :=
  if negb (is_ready s) then Err PA_ERR_BADSTATE else
  if negb (bool_decide (direction s <> PA_STREAM_UPLOAD)) then Err PA_ERR_BADSTATE else
  if negb (12 <=? version (context s)) then Err PA_ERR_NOTSUPPORTED else
  Ok (suspended s).

Definition pa_stream_is_corked (s : pa_stream) : result bool :=
  if negb (is_ready s) then Err PA_ERR_BADSTATE else
  if negb (bool_decide (direction s <> PA_STREAM_UPLOAD)) then Err PA_ERR_BADSTATE else
  Ok (corked s).

(** [time_counter_diff]: the difference of two [pa_usec_t] counters.
    [negative] tells whether the caller passed a place for the sign; the
    second component is what is stored there. *)
Definition time_counter_diff (s : pa_stream) (a b : Z) (negative : bool)
    : Z * option bool :=
  if b <=? a then (u64 (a - b), if negative then Some false else None)
  else if negative && is_record s then (u64 (b - a), Some true)
  else (0, if negative then Some false else None).

(** [pa_stream_get_latency]; [smoothed] is handed on to
    [pa_stream_get_time]. *)
Definition pa_stream_get_latency (s : pa_stream) (smoothed : Z) (negative : bool)
    : result (Z * option bool * pa_stream) :=
  if negb (is_ready s) then Err PA_ERR_BADSTATE else
  if negb (bool_decide (direction s <> PA_STREAM_UPLOAD)) then Err PA_ERR_BADSTATE else
  if negb (timing_info_valid s) then Err PA_ERR_NODATA else
  if negb (negb (is_playback s) || negb (write_index_corrupt (timing_info s)))
  then Err PA_ERR_NODATA else
  if negb (negb (is_record s) || negb (read_index_corrupt (timing_info s)))
  then Err PA_ERR_NODATA else
  match pa_stream_get_time s smoothed with
  | Err e => Err e
  | Ok (t, s1) =>
      let cindex := if is_playback s1 then write_index (timing_info s1)
                    else read_index (timing_info s1) in
      let cindex := if cindex <? 0 then 0 else cindex in
      let c := pa_bytes_to_usec cindex (sample_spec s1) in
      let '(r_usec, neg) :=
        if is_playback s1 then time_counter_diff s1 c t negative
        else time_counter_diff s1 t c negative in
      Ok (r_usec, neg, s1)
  end.

(** [pa_stream_simple_ack_callback] for an operation still attached to its
    context: the answer to a cork, flush, prebuf, trigger or drain
    request. *)
Definition pa_stream_simple_ack_callback (s : pa_stream) (o : pa_operation)
    (a : answer unit) : pa_stream * list event :=
  let call (success : bool) :=
    match op_callback o with
    | Some f => [ev_success f success (op_userdata o)]
    | None => []
    end in
  match a with
  | answer_error true => (s, [])
  | answer_error false => (s, call false)
  | answer_malformed => pa_context_fail s
  | answer_reply _ => (s, call true)
  end.
End Model.

(** ** Reading the event log *)

(** The payloads handed to [pa_pstream_send_memblock], in order. *)
Definition sent_payloads (evs : list event) : list payload :=
  omap (fun e => match e with ev_send_memblock p => Some p | _ => None end) evs.

(** The user functions released with [free_cb(data)], in order. *)
Definition freed_buffers (evs : list event) : list Z :=
  omap (fun e => match e with ev_free_cb f => Some f | _ => None end) evs.




Section Vocabulary.
Context `{ext : Externals}.


(** The saved corrections that [correction_walk] applies, in the order in
    which it applies them: the same loop, collecting. *)
Fixpoint applied_corrections (oob : pa_index_correction) (ring : list pa_index_correction)
    (n j : nat) (ctag : Z) : list pa_index_correction :=
  match n with
  | O => []
  | S n' =>
      let c := correction_at oob ring j in
      let j' := ((j + 1) mod PA_MAX_WRITE_INDEX_CORRECTIONS)%nat in
      if negb (valid c) || (tag c <? ctag)
      then applied_corrections oob ring n' j' ctag
      else c :: applied_corrections oob ring n' j' (u32 (tag c + 1))
  end.

(** The correction ring has its [N] slots and the cursor is on one of
    them. *)
Definition ring_shape (s : pa_stream) : Prop :=
  length (write_index_corrections s) = PA_MAX_WRITE_INDEX_CORRECTIONS /\
  (current_write_index_correction s < PA_MAX_WRITE_INDEX_CORRECTIONS)%nat.

End Vocabulary.

(** Valid entries in strictly increasing tag order, the first with a tag of
    at least [bound]. *)
Fixpoint increasing_from (bound : Z) (l : list pa_index_correction) : Prop :=
  match l with
  | [] => True
  | c :: l' => valid c = true /\ bound <= tag c /\ increasing_from (tag c + 1) l'
  end.

(** ** Invariants of runs, their vocabulary *)

(** [stable s s']: going from [s] to [s'] keeps the flags, the direction,
    the write barrier, the last reported time and the peek cursor, and does
    not return the stream to [unconnected]. *)
Definition stable (s s' : pa_stream) : Prop :=
  flags s' = flags s /\
  direction s' = direction s /\
  write_index_not_before s' = write_index_not_before s /\
  previous_time s' = previous_time s /\
  peek_memchunk s' = peek_memchunk s /\
  peek_data s' = peek_data s /\
  (state s' = PA_STREAM_UNCONNECTED -> state s = PA_STREAM_UNCONNECTED).

(** What every action respects: a connected stream stays connected and
    keeps its flags and direction; the write barrier moves only on a
    connected stream that is not a playback stream; the last reported time
    never goes back. *)
Definition step_frame (s s' : pa_stream) : Prop :=
  (state s <> PA_STREAM_UNCONNECTED ->
   state s' <> PA_STREAM_UNCONNECTED /\ flags s' = flags s /\ direction s' = direction s) /\
  (write_index_not_before s' = write_index_not_before s \/
   direction s' <> PA_STREAM_PLAYBACK /\ state s <> PA_STREAM_UNCONNECTED) /\
  previous_time s <= previous_time s'.

(** What every action other than a drop respects once a chunk is held. *)
Definition cursor_frame (s s' : pa_stream) : Prop :=
  memchunk.memblock (peek_memchunk s) <> None ->
  peek_memchunk s' = peek_memchunk s /\ peek_data s' = peek_data s.


(** ** Concrete collaborators and streams used in examples *)

#[local] Instance demo_externals : Externals :=
  {| PA_MAX_WRITE_INDEX_CORRECTIONS := 10;
     pa_bytes_to_usec := fun b _ => b;
     pa_usec_to_bytes := fun t _ => t |}.

Definition demo_sample_spec : pa_sample_spec := {| format := 3; rate := 44100; channels := 2 |}.

Definition demo_context (v : Z) : pa_context :=
  {| version := v; ctag := 7; shm := false; block_size_max := 4 |}.

(** A stream of context version [v] taken through connect and the server's
    reply, which grants 4096 bytes of credit on channel 7. *)
Definition demo_reply : answer create_reply :=
  answer_reply {| cr_channel := 7; cr_requested_bytes := 4096; cr_maxlength := 65536;
                  cr_tlength := 8192; cr_prebuf := 8192; cr_minreq := 1024;
                  cr_fragsize := 1024; cr_sample_spec := demo_sample_spec;
                  cr_suspended := false; cr_usec := 20000 |}.

Definition demo_connected (dir : pa_stream_direction_t) (v : Z)
    (fl : list pa_stream_flags_t) : pa_stream :=
  match create_stream dir (pa_stream_new (demo_context v) demo_sample_spec) None fl with
  | Ok (s, _) => (pa_create_stream_callback s demo_reply).1
  | Err _ => pa_stream_new (demo_context v) demo_sample_spec
  end.

Definition demo_playback : pa_stream := demo_connected PA_STREAM_PLAYBACK 13 [].
Definition demo_record : pa_stream := demo_connected PA_STREAM_RECORD 13 [].

Definition demo_latency (wi : Z) : latency_reply :=
  {| r_sink_usec := 20000; r_source_usec := 0; r_playing := true;
     r_local := 100; r_remote := 200; r_write_index := wi; r_read_index := 0;
     r_underrun_for := 0; r_playing_for := 0 |}.

Definition demo_op (t : Z) : pa_operation :=
  {| op_tag := t; op_callback := None; op_userdata := 0 |}.

Definition demo_answer (t wi : Z) : action :=
  recv_timing_answer zero_correction (demo_op t) t (answer_reply (demo_latency wi)) 300.

(** Ten latency queries outstanding at once.  Nine queries (tags 8 to 16)
    are sent and answered, which leaves the cursor on the last slot; the
    tenth (tag 17) takes slot 0, 100 bytes are written after it, and nine
    more (tags 18 to 26) fill slots 1 to 9, the cursor ending on the last
    slot again.  The nine answers are handled with the cursor on the last
    slot; what they find past the end of the array is taken to be zero. *)
Definition ring_wrap_actions : list action :=
  [call_connect_playback None []; recv_create_answer demo_reply]
  ++ replicate 9 (call_update_timing_info None 0)
  ++ ((fun t => demo_answer t 0) <$> [8; 9; 10; 11; 12; 13; 14; 15; 16])
  ++ [call_update_timing_info None 0; call_write 100 None 0 PA_SEEK_RELATIVE]
  ++ replicate 9 (call_update_timing_info None 0).

Definition ring_wrapped : pa_stream :=
  run ring_wrap_actions (pa_stream_new (demo_context 13) demo_sample_spec).

(** A playback stream of a legacy server (protocol version 12) before it is
    connected, and two sets of caller-supplied buffer attributes: all
    unset, and some set. *)
Definition legacy_stream : pa_stream := pa_stream_new (demo_context 12) demo_sample_spec.

Definition attr_unset : pa_buffer_attr :=
  {| maxlength := 0; tlength := 0; prebuf := 0; minreq := 0; fragsize := 0 |}.

Definition attr_some : pa_buffer_attr :=
  {| maxlength := 65536; tlength := 8192; prebuf := 0; minreq := 1024; fragsize := 0 |}.

(** A playback stream with a suspended callback (function 100, user data
    111) and a started callback (function 200, user data 222). *)
Definition demo_with_callbacks : pa_stream :=
  pa_stream_set_started_callback
    (pa_stream_set_suspended_callback demo_playback (Some 100) 111) (Some 200) 222.


Definition demo_chunk : pa_memchunk :=
  {| memchunk.memblock := Some {| data_ptr := 4096 |}; memchunk.index := 16;
     memchunk.length := 512 |}.

Definition demo_recording : pa_stream := run [recv_record_data demo_chunk] demo_record.

(** A playback stream with a smoother and a valid latency snapshot. *)
Definition demo_timed : pa_stream :=
  run [demo_answer 8 0] (demo_connected PA_STREAM_PLAYBACK 13 [PA_STREAM_INTERPOLATE_TIMING]).

(** The scenarios of the specification.  A stream with a write callback
    (function 300, user data 333) that is connected and answered; a playback
    stream with one latency query outstanding (tag 8); and the reply to that
    query, reporting the write index [wi]. *)
Definition scenario_connect : list action :=
  [call_set_callback on_write (Some 300) 333; call_connect_playback None [];
   recv_create_answer demo_reply].

Definition demo_queried : pa_stream := run [call_update_timing_info None 0] demo_playback.

Definition scenario_reply (wi : Z) : action := demo_answer 8 wi.


(** ** Vocabulary of the life cycle *)

(** [same_life s s']: going from [s] to [s'] keeps the state and the
    registered callbacks. *)
Definition same_life (s s' : pa_stream) : Prop :=
  state s' = state s /\ callbacks s' = callbacks s.

(** What every action respects: the state and the callbacks stay as they
    are, or the stream ends up terminal with its callbacks cleared, or it is
    terminal neither before nor after. *)
Definition life_step (s s' : pa_stream) : Prop :=
  same_life s s' \/
  (is_terminal s' = true /\ callbacks s' = no_callbacks) \/
  (is_terminal s = false /\ is_terminal s' = false).

(** A playback stream that was connected, answered and then killed by the
    server, with a state callback (function 400, user data 444) registered
    before the kill. *)
Definition demo_killed : pa_stream :=
  run [call_connect_playback None []; recv_create_answer demo_reply;
       call_set_callback on_state (Some 400) 444; recv_killed]
    (pa_stream_new (demo_context 13) demo_sample_spec).
(** * Properties *)

Section Properties.
Context `{ext : Externals}.

(** ** Frame lemmas for the latency query machinery *)

Lemma update_timing_info_frame s cb ud o s' ev :
  pa_stream_update_timing_info s cb ud = Ok (o, s', ev) ->
  requested_bytes s' = requested_bytes s /\
  state s' = state s /\ direction s' = direction s /\
  write_index_not_before s' = write_index_not_before s /\
  read_index_not_before s' = read_index_not_before s /\
  timing_info s' = timing_info s /\
  sent_payloads ev = [] /\ freed_buffers ev = [].
Proof.
  unfold pa_stream_update_timing_info, pa_tagstruct_command.
  repeat case_match; intros [= <- <- <-]; try discriminate; simpl; auto 10.
Qed.

Lemma request_auto_timing_update_frame s force :
  let r := request_auto_timing_update s force in
  requested_bytes r.1 = requested_bytes s /\
  state r.1 = state s /\ direction r.1 = direction s /\
  write_index_not_before r.1 = write_index_not_before s /\
  read_index_not_before r.1 = read_index_not_before s /\
  timing_info r.1 = timing_info s /\
  sent_payloads r.2 = [] /\ freed_buffers r.2 = [].
Proof.
  unfold request_auto_timing_update.
  destruct (negb (has_flag _ s)); [simpl; auto 10|].
  destruct (is_ready s && _); [|simpl; auto 10].
  destruct (pa_stream_update_timing_info s None 0) as [[[o s'] ev]|e] eqn:E;
    [|simpl; auto 10].
  apply update_timing_info_frame in E. simpl. intuition.
Qed.

(** ** The write pipeline *)







Lemma sent_payloads_app ev1 ev2 :
  sent_payloads (ev1 ++ ev2) = sent_payloads ev1 ++ sent_payloads ev2.
Proof. apply omap_app. Qed.

Lemma sent_payloads_send ps : sent_payloads (ev_send_memblock <$> ps) = ps.
Proof. induction ps; simpl; [done|]. unfold sent_payloads in *. simpl. by f_equal. Qed.

Lemma sent_payloads_freed (free_cb : option Z) (b : bool) :
  sent_payloads match free_cb with
                | Some f => if b then [ev_free_cb f] else []
                | None => []
                end = [].
Proof. by destruct free_cb, b. Qed.

(** What a write that gets past its checks and finishes its loop does, in
    terms of the payloads [ps] of the loop. *)
Lemma pa_stream_write_inv s len free_cb offset seek s' ev :
  pa_stream_write s len free_cb offset seek = Some (Ok (s', ev)) ->
  is_ready s = true /\
  (direction s = PA_STREAM_PLAYBACK \/ direction s = PA_STREAM_UPLOAD) /\
  (direction s = PA_STREAM_PLAYBACK \/ seek = PA_SEEK_RELATIVE /\ offset = 0) /\
  (len <= 0 /\ s' = s /\ ev = [] \/
   0 < len /\
   write_chunks (Z.to_nat len) (context s) (channel s) free_cb 0 len offset seek
     = Some (sent_payloads ev) /\
   requested_bytes s' =
     (if len <? requested_bytes s then u32 (requested_bytes s - len) else 0)).
Proof.
  unfold pa_stream_write, is_playback.
  destruct (is_ready s); [|discriminate]. simpl.
  destruct (bool_decide_reflect (direction s = PA_STREAM_PLAYBACK)) as [Hp|Hp];
    destruct (bool_decide_reflect (direction s = PA_STREAM_UPLOAD)) as [Hu|Hu];
    simpl; try discriminate.
  all: destruct (seek_value seek <=? 3); simpl; try discriminate.
  all: try (destruct (bool_decide_reflect (seek = PA_SEEK_RELATIVE)) as [Hs|Hs];
            simpl; try discriminate;
            destruct (Z.eqb_spec offset 0); simpl; try discriminate).
  all: destruct (Z.leb_spec len 0);
    [intros [= <- <-]; repeat split; auto|].
  all: destruct (write_chunks _ _ _ _ _ _ _ _) as [ps|]; [|discriminate].
  all: set (s1 := if len <? requested_bytes s then _ else _).
  all: assert (Hd1 : direction s1 = direction s) by (subst s1; by case_match).
  all: assert (Hr1 : requested_bytes s1 =
         if len <? requested_bytes s then u32 (requested_bytes s - len) else 0)
         by (subst s1; by case_match).
  all: unfold is_playback; rewrite Hd1.
  all: destruct (bool_decide_reflect (direction s = PA_STREAM_PLAYBACK)); try done.
  all: try (set (s2 := if valid _ then _ else _);
    set (s3 := if timing_info_valid s2 then _ else _);
    assert (Hr3 : requested_bytes s3 = requested_bytes s1)
      by (subst s3 s2; by repeat case_match);
    destruct (negb (timing_info_valid s3) || _);
    [pose proof (request_auto_timing_update_frame s3 true) as Hf;
     destruct (request_auto_timing_update s3 true) as [s4 ev4];
     simpl in Hf; destruct Hf as (Hrb & _ & _ & _ & _ & _ & Hsp & _)|]).
  all: intros [= <- <-]; repeat split; auto; right; split; [lia|].
  all: rewrite ?sent_payloads_app, ?sent_payloads_send, ?sent_payloads_freed,
         ?app_nil_r; try rewrite Hsp; rewrite ?app_nil_r.
  all: split; [done|congruence].
Qed.


(** C10: a write of length 0 that passes the state, direction and seek-mode
    checks returns 0 and does nothing: the stream (credit, timing snapshot,
    correction ring and everything else) is the one it was given, and the
    event log is empty, so no payload is sent and [free_cb] is not called. *)
Theorem write_zero_length_is_noop s free_cb offset seek :
  is_ready s = true ->
  direction s = PA_STREAM_PLAYBACK \/ direction s = PA_STREAM_UPLOAD ->
  direction s = PA_STREAM_PLAYBACK \/ seek = PA_SEEK_RELATIVE /\ offset = 0 ->
  pa_stream_write s 0 free_cb offset seek = Some (Ok (s, [])).
Proof.
  intros Hr Hd Hs. unfold pa_stream_write. rewrite Hr. simpl.
  assert ((is_playback s || bool_decide (direction s = PA_STREAM_UPLOAD)) = true) as ->.
  { unfold is_playback. destruct Hd as [-> | ->]; done. }
  assert ((seek_value seek <=? 3) = true) as -> by (by destruct seek).
  assert ((is_playback s
           || bool_decide (seek = PA_SEEK_RELATIVE) && (offset =? 0)) = true) as ->.
  { unfold is_playback. destruct Hs as [-> | [-> ->]]; [done|]. by rewrite orb_true_r. }
  reflexivity.
Qed.

(** C3: a successful write of [len] bytes leaves the credit at
    [max(0, requested_bytes - len)], which is never negative.  The credit is
    a [uint32_t] and the length a [size_t]. *)
Theorem write_credit s len free_cb offset seek s' ev :
  pa_stream_write s len free_cb offset seek = Some (Ok (s', ev)) ->
  0 <= requested_bytes s < 2 ^ 32 ->
  0 <= len ->
  requested_bytes s' = Z.max 0 (requested_bytes s - len) /\ 0 <= requested_bytes s'.
Proof.
  intros Hw Hrb Hlen.
  apply pa_stream_write_inv in Hw as (_ & _ & _ & [(? & -> & _)|(Hpos & _ & ->)]).
  - lia.
  - destruct (Z.ltb_spec len (requested_bytes s)).
    + unfold u32. rewrite Z.mod_small by lia. lia.
    + lia.
Qed.



(** ** What an operation leaves alone *)

Lemma stable_refl s : stable s s.
Proof. by repeat split. Qed.

Lemma stable_trans s1 s2 s3 : stable s1 s2 -> stable s2 s3 -> stable s1 s3.
Proof. unfold stable. intuition congruence. Qed.

#[local] Hint Resolve stable_refl : core.

Lemma stable_update_timing_info s cb ud o s' ev :
  pa_stream_update_timing_info s cb ud = Ok (o, s', ev) -> stable s s'.
Proof.
  unfold pa_stream_update_timing_info, pa_tagstruct_command.
  repeat case_match; intros [= <- <- <-]; try discriminate; by repeat split.
Qed.

Lemma stable_request_auto_timing_update s force :
  stable s (request_auto_timing_update s force).1.
Proof.
  unfold request_auto_timing_update.
  destruct (negb (has_flag _ s)); [done|].
  destruct (is_ready s && _); [|done].
  destruct (pa_stream_update_timing_info s None 0) as [[[o s'] ev]|e] eqn:E; [|done].
  apply stable_update_timing_info in E. unfold stable in *. simpl. intuition.
Qed.

Lemma stable_set_state s st :
  st <> PA_STREAM_UNCONNECTED -> stable s (pa_stream_set_state s st).1.
Proof.
  intros Hst. unfold pa_stream_set_state. case_bool_decide; [done|].
  destruct (_ || _); simpl; repeat split; simpl; done.
Qed.

Lemma stable_context_fail s : stable s (pa_context_fail s).1.
Proof. by apply stable_set_state. Qed.

Lemma stable_invalidate_read s : stable s (invalidate_indexes s true false).1.
Proof.
  unfold invalidate_indexes. destruct (negb (is_ready s)); [done|].
  eapply stable_trans; [|apply stable_request_auto_timing_update].
  by case_match; repeat split.
Qed.

(** Raising the write barrier changes nothing else of the above. *)
Lemma invalidate_write_frame s :
  let s' := (invalidate_indexes s false true).1 in
  flags s' = flags s /\ direction s' = direction s /\ state s' = state s /\
  previous_time s' = previous_time s /\
  peek_memchunk s' = peek_memchunk s /\ peek_data s' = peek_data s.
Proof.
  unfold invalidate_indexes. destruct (negb (is_ready s)); [done|].
  simpl.
  match goal with |- context [request_auto_timing_update ?x ?f] =>
    pose proof (stable_request_auto_timing_update x f) as Hs;
    pose proof (request_auto_timing_update_frame x f) as Hf;
    destruct (request_auto_timing_update x f) as [s1 ev1] end.
  simpl in *. unfold stable in Hs.
  destruct Hs as (-> & -> & _ & -> & -> & -> & _).
  destruct Hf as (_ & -> & _).
  by case_match.
Qed.


Ltac frame_step :=
  match goal with
  | |- context [request_auto_timing_update ?x ?f] =>
      let Hs := fresh "Hs" in
      pose proof (stable_request_auto_timing_update x f) as Hs;
      destruct (request_auto_timing_update x f) as [? ?]
  | |- context [invalidate_indexes ?x true false] =>
      let Hs := fresh "Hs" in
      pose proof (stable_invalidate_read x) as Hs;
      destruct (invalidate_indexes x true false) as [? ?]
  | |- context [pa_context_fail ?x] =>
      let Hs := fresh "Hs" in
      pose proof (stable_context_fail x) as Hs;
      destruct (pa_context_fail x) as [? ?]
  | |- context [pa_stream_set_state ?x ?st] =>
      let Hs := fresh "Hs" in
      pose proof (stable_set_state x st ltac:(done)) as Hs;
      destruct (pa_stream_set_state x st) as [? ?]
  end.

Ltac frame_solve :=
  cbv zeta; repeat frame_step; intros;
  repeat (case_match; simplify_eq/=; try done);
  unfold stable in *; simpl in *; intuition congruence.

Lemma stable_command_request s bytes : stable s (pa_command_request s bytes).1.
Proof. unfold pa_command_request. frame_solve. Qed.

Lemma stable_command_started s : stable s (pa_command_stream_started s).1.
Proof. unfold pa_command_stream_started. frame_solve. Qed.

Lemma stable_command_suspended s b : stable s (pa_command_stream_suspended s b).1.
Proof. unfold pa_command_stream_suspended. frame_solve. Qed.

Lemma stable_command_moved s b attr usec :
  stable s (pa_command_stream_moved s b attr usec).1.
Proof. unfold pa_command_stream_moved. frame_solve. Qed.

Lemma stable_command_overflow_or_underflow s b :
  stable s (pa_command_overflow_or_underflow s b).1.
Proof. unfold pa_command_overflow_or_underflow. frame_solve. Qed.

Lemma stable_command_killed s : stable s (pa_command_stream_killed s).1.
Proof. unfold pa_command_stream_killed. frame_solve. Qed.

Lemma stable_disconnect_callback s a : stable s (pa_stream_disconnect_callback s a).1.
Proof. unfold pa_stream_disconnect_callback. frame_solve. Qed.

Lemma stable_set_buffer_attr_callback s a :
  stable s (stream_set_buffer_attr_callback s a).1.
Proof. unfold stream_set_buffer_attr_callback. frame_solve. Qed.

Lemma stable_update_sample_rate_callback s r a :
  stable s (stream_update_sample_rate_callback s r a).1.
Proof. unfold stream_update_sample_rate_callback. frame_solve. Qed.

Lemma stable_set_callback k s cb ud : stable s (set_callback k s cb ud).
Proof.
  destruct k; simpl;
    unfold pa_stream_set_read_callback, pa_stream_set_write_callback,
      pa_stream_set_state_callback, pa_stream_set_overflow_callback,
      pa_stream_set_underflow_callback, pa_stream_set_latency_update_callback,
      pa_stream_set_moved_callback, pa_stream_set_suspended_callback,
      pa_stream_set_started_callback; frame_solve.
Qed.

Lemma stable_simple_command s command cb ud o s' ev :
  stream_send_simple_command s command cb ud = Ok (o, s', ev) -> stable s s'.
Proof. unfold stream_send_simple_command, pa_tagstruct_command. frame_solve. Qed.

Lemma stable_drain s cb ud o s' ev :
  pa_stream_drain s cb ud = Ok (o, s', ev) -> stable s s'.
Proof. unfold pa_stream_drain, pa_tagstruct_command. frame_solve. Qed.

Lemma stable_cork s b cb ud o s' ev :
  pa_stream_cork s b cb ud = Ok (o, s', ev) -> stable s s'.
Proof. unfold pa_stream_cork, pa_tagstruct_command. frame_solve. Qed.

Lemma stable_prebuf s cb ud o s' ev :
  pa_stream_prebuf s cb ud = Ok (o, s', ev) -> stable s s'.
Proof.
  unfold pa_stream_prebuf.
  destruct (stream_send_simple_command s PA_COMMAND_PREBUF_PLAYBACK_STREAM cb ud)
    as [[[o1 s1] ev1]|] eqn:E; [apply stable_simple_command in E|]; frame_solve.
Qed.

Lemma stable_trigger s cb ud o s' ev :
  pa_stream_trigger s cb ud = Ok (o, s', ev) -> stable s s'.
Proof.
  unfold pa_stream_trigger.
  destruct (stream_send_simple_command s PA_COMMAND_TRIGGER_PLAYBACK_STREAM cb ud)
    as [[[o1 s1] ev1]|] eqn:E; [apply stable_simple_command in E|]; frame_solve.
Qed.

Lemma stable_write s len free_cb offset seek s' ev :
  pa_stream_write s len free_cb offset seek = Some (Ok (s', ev)) -> stable s s'.
Proof.
  unfold pa_stream_write.
  repeat (match goal with
          | |- (if ?b then _ else _) = _ -> _ => destruct b; [try discriminate|]
          end; try (intros [= <- <-]; done)).
  all: try discriminate.
  destruct (write_chunks _ _ _ _ _ _ _ _); [|discriminate].
  set (s1 := if len <? requested_bytes s then _ else _).
  assert (H1 : stable s s1) by (subst s1; by case_match).
  destruct (is_playback s1); [|intros [= <- <-]; done].
  set (s2 := if valid _ then _ else _).
  set (s3 := if timing_info_valid s2 then _ else _).
  assert (H3 : stable s1 s3) by (subst s3 s2; by repeat case_match).
  destruct (negb (timing_info_valid s3) || _).
  - pose proof (stable_request_auto_timing_update s3 true) as H4.
    destruct (request_auto_timing_update s3 true) as [s4 ev4].
    intros [= <- <-]. eauto using stable_trans.
  - intros [= <- <-]. eauto using stable_trans.
Qed.

Lemma stable_timing_info_finish s o : stable s (timing_info_finish s o).1.
Proof. unfold timing_info_finish. by repeat split. Qed.

Lemma stable_timing_info_callback oob s o t a now :
  stable s (stream_get_timing_info_callback oob s o t a now).1.
Proof.
  unfold stream_get_timing_info_callback. cbv zeta.
  destruct a as [[|]| |r].
  - done.
  - eapply stable_trans; [|apply stable_timing_info_finish]. done.
  - eapply stable_trans; [|apply stable_context_fail]. done.
  - eapply stable_trans; [|apply stable_timing_info_finish].
    by case_match.
Qed.

Lemma stable_flush_playback s cb ud o s' ev :
  direction s = PA_STREAM_PLAYBACK ->
  pa_stream_flush s cb ud = Ok (o, s', ev) -> stable s s'.
Proof.
  intros Hd. unfold pa_stream_flush, is_playback. rewrite Hd. simpl.
  destruct (stream_send_simple_command s _ cb ud) as [[[o1 s1] ev1]|] eqn:E;
    [|by repeat case_match].
  pose proof (stable_simple_command _ _ _ _ _ _ _ E) as H1.
  assert (direction s1 = PA_STREAM_PLAYBACK) as -> by (destruct H1 as (_ & -> & _); done).
  simpl.
  set (s2 := if valid _ then _ else _).
  set (s3 := if timing_info_valid s2 then _ else _).
  assert (H3 : stable s1 s3) by (subst s3 s2; by repeat case_match).
  pose proof (stable_invalidate_read s3) as H4.
  pose proof (stable_request_auto_timing_update s3 true) as H5.
  destruct (invalidate_indexes s3 true false), (request_auto_timing_update s3 true).
  repeat case_match; intros; simplify_eq/=; eauto using stable_trans.
Qed.

(** On a stream that is not a playback stream, a flush raises the write
    barrier and leaves the rest of the above as it is. *)
Lemma flush_other_frame s cb ud o s' ev :
  direction s <> PA_STREAM_PLAYBACK ->
  pa_stream_flush s cb ud = Ok (o, s', ev) ->
  flags s' = flags s /\ direction s' = direction s /\ state s' = state s /\
  previous_time s' = previous_time s /\
  peek_memchunk s' = peek_memchunk s /\ peek_data s' = peek_data s.
Proof.
  intros Hd. unfold pa_stream_flush, is_playback.
  rewrite (bool_decide_eq_false_2 _ Hd).
  destruct (stream_send_simple_command s _ cb ud) as [[[o1 s1] ev1]|] eqn:E;
    [|by repeat case_match].
  assert (stable s s1 /\ state s1 = state s) as [H1 Hst].
  { revert E. unfold stream_send_simple_command, pa_tagstruct_command.
    case_match; [done|]. intros [= <- <- <-]. by repeat split. }
  assert (direction s1 <> PA_STREAM_PLAYBACK) as Hd1
    by (destruct H1 as (_ & -> & _); done).
  rewrite (bool_decide_eq_false_2 _ Hd1).
  pose proof (invalidate_write_frame s1) as H2.
  destruct (invalidate_indexes s1 false true) as [s2 ev2].
  repeat case_match; intros; simplify_eq/=.
  unfold stable in H1. intuition congruence.
Qed.

Lemma create_stream_frame dir s attr fl s' ev :
  create_stream dir s attr fl = Ok (s', ev) ->
  state s = PA_STREAM_UNCONNECTED /\ state s' = PA_STREAM_CREATING /\
  direction s' = dir /\ flags s' = fl /\
  write_index_not_before s' = write_index_not_before s /\
  previous_time s' = previous_time s /\
  peek_memchunk s' = peek_memchunk s /\ peek_data s' = peek_data s.
Proof.
  unfold create_stream, pa_tagstruct_command, pa_stream_set_state.
  case_bool_decide as Hst; [|done]. simpl.
  repeat (match goal with
          | |- (if ?b then _ else _) = _ -> _ => destruct b; [discriminate|]
          end).
  cbv zeta. simpl.
  destruct attr, (bool_decide (PA_STREAM_INTERPOLATE_TIMING ∈ fl)); simpl.
  all: intros Heq; simpl in Heq; case_bool_decide; [congruence|].
  all: by simplify_eq/=.
Qed.

Lemma connect_upload_frame s s' ev :
  pa_stream_connect_upload s = Ok (s', ev) ->
  state s = PA_STREAM_UNCONNECTED /\ state s' = PA_STREAM_CREATING /\
  direction s' = PA_STREAM_UPLOAD /\ flags s' = flags s /\
  write_index_not_before s' = write_index_not_before s /\
  previous_time s' = previous_time s /\
  peek_memchunk s' = peek_memchunk s /\ peek_data s' = peek_data s.
Proof.
  unfold pa_stream_connect_upload, pa_tagstruct_command, pa_stream_set_state.
  case_bool_decide as Hst; [|done]. simpl.
  intros Heq. case_bool_decide; [congruence|]. by simplify_eq/=.
Qed.

Lemma stable_create_stream_complete s : stable s (create_stream_complete s).1.
Proof.
  unfold create_stream_complete.
  pose proof (stable_set_state s PA_STREAM_READY ltac:(done)) as H1.
  destruct (pa_stream_set_state s PA_STREAM_READY) as [s1 ev1].
  destruct (has_flag _ s1); [|done].
  pose proof (stable_request_auto_timing_update s1 true) as H2.
  destruct (request_auto_timing_update s1 true) as [s2 ev2].
  eauto using stable_trans.
Qed.

Lemma stable_create_stream_callback s a : stable s (pa_create_stream_callback s a).1.
Proof.
  unfold pa_create_stream_callback.
  destruct a as [[|]| |r].
  - done.
  - by apply stable_set_state.
  - apply stable_context_fail.
  - cbv zeta. eapply stable_trans; [|apply stable_create_stream_complete].
    set (s1 := set_channel _ s).
    set (s2 := if negb (is_record s1) then _ else _).
    assert (stable s s2) by (subst s2 s1; by case_match).
    set (s3 := if 9 <=? _ then _ else _).
    assert (stable s2 s3) by (subst s3; by repeat case_match).
    set (s4 := if (12 <=? _) && _ then _ else _).
    assert (stable s3 s4) by (subst s4; by repeat case_match).
    set (s5 := if (13 <=? _) && _ then _ else _).
    assert (stable s4 s5) by (subst s5; by repeat case_match).
    assert (stable s5 (if is_record s5 then set_record_memblockq [] s5 else s5))
      by (by case_match).
    eauto 6 using stable_trans.
Qed.

(** The time query assigns the last reported time and nothing else. *)
Lemma get_time_frame s smoothed t s' :
  pa_stream_get_time s smoothed = Ok (t, s') ->
  flags s' = flags s /\ direction s' = direction s /\ state s' = state s /\
  write_index_not_before s' = write_index_not_before s /\
  peek_memchunk s' = peek_memchunk s /\ peek_data s' = peek_data s /\
  previous_time s <= previous_time s'.
Proof.
  unfold pa_stream_get_time.
  repeat (match goal with
          | |- (if ?b then _ else _) = _ -> _ => destruct b; [discriminate|]
          end).
  destruct (negb (has_flag _ s)).
  - destruct (Z.ltb_spec (if smoother s then smoothed else calc_time s false)
                         (previous_time s));
      intros [= <- <-]; simpl; repeat split; lia.
  - intros [= <- <-]. repeat split; lia.
Qed.

(** Peeking assigns the peek cursor and nothing else, and not even that
    once a chunk is held. *)
Lemma peek_frame s r s' :
  pa_stream_peek s = Ok (r, s') ->
  flags s' = flags s /\ direction s' = direction s /\ state s' = state s /\
  write_index_not_before s' = write_index_not_before s /\
  previous_time s' = previous_time s /\
  (memchunk.memblock (peek_memchunk s) <> None -> s' = s).
Proof.
  unfold pa_stream_peek.
  repeat case_match; try discriminate; intros [= <- <-]; done.
Qed.

Lemma drop_frame s s' :
  pa_stream_drop s = Ok s' ->
  flags s' = flags s /\ direction s' = direction s /\ state s' = state s /\
  write_index_not_before s' = write_index_not_before s /\
  previous_time s' = previous_time s.
Proof.
  unfold pa_stream_drop.
  repeat case_match; try discriminate; intros [= <-]; done.
Qed.

(** ** Invariants of runs *)


Lemma stable_step_frame s s' : stable s s' -> step_frame s s'.
Proof.
  intros (Hf & Hd & Hw & Hp & _ & _ & Hs). repeat split; auto; try lia.
Qed.

Lemma stable_cursor_frame s s' : stable s s' -> cursor_frame s s'.
Proof. intros (_ & _ & _ & _ & ? & ? & _) _. done. Qed.

Lemma step_frame_refl s : step_frame s s.
Proof. apply stable_step_frame, stable_refl. Qed.

Lemma cursor_frame_refl s : cursor_frame s s.
Proof. by intros _. Qed.

#[local] Hint Resolve step_frame_refl cursor_frame_refl stable_step_frame
  stable_cursor_frame : core.

Lemma perform_frames a s :
  step_frame s (perform a s).1 /\
  (a <> call_drop -> cursor_frame s (perform a s).1).
Proof.
  destruct a; simpl.
  - unfold pa_stream_connect_playback.
    destruct (create_stream _ s attr fl) as [[s' ev]|] eqn:E; simpl; [|auto].
    apply create_stream_frame in E as (H0 & H1 & H2 & H3 & H4 & H5 & H6 & H7).
    split; [|by intros _ _]. repeat split; auto; try lia; congruence.
  - unfold pa_stream_connect_record.
    destruct (create_stream _ s attr fl) as [[s' ev]|] eqn:E; simpl; [|auto].
    apply create_stream_frame in E as (H0 & H1 & H2 & H3 & H4 & H5 & H6 & H7).
    split; [|by intros _ _]. repeat split; auto; try lia; congruence.
  - destruct (pa_stream_connect_upload s) as [[s' ev]|] eqn:E; simpl; [|auto].
    apply connect_upload_frame in E as (H0 & H1 & H2 & H3 & H4 & H5 & H6 & H7).
    split; [|by intros _ _]. repeat split; auto; try lia; congruence.
  - case_bool_decide; [|auto].
    pose proof (stable_create_stream_callback s a). auto.
  - pose proof (stable_disconnect_callback s a). auto.
  - destruct (pa_stream_write s len free_cb offset seek) as [[[s' ev]|]|] eqn:E;
      simpl; auto.
    apply stable_write in E. auto.
  - destruct (pa_stream_peek s) as [[r s']|] eqn:E; simpl; [|auto].
    apply peek_frame in E as (H1 & H2 & H3 & H4 & H5 & H6).
    split; [|intros _ Hm; by rewrite H6].
    repeat split; auto; try lia; congruence.
  - destruct (pa_stream_drop s) as [s'|] eqn:E; simpl; [|split; [auto|done]].
    apply drop_frame in E as (H1 & H2 & H3 & H4 & H5).
    split; [|done]. repeat split; auto; try lia; congruence.
  - assert (stable s (pa_stream_record_data s c)) by by repeat split. auto.
  - destruct (pa_stream_update_timing_info s cb userdata) as [[[o s'] ev]|] eqn:E;
      simpl; [|auto].
    apply stable_update_timing_info in E. auto.
  - pose proof (stable_timing_info_callback oob s o t a now). auto.
  - destruct (pa_stream_get_time s smoothed) as [[t s']|] eqn:E; simpl; [|auto].
    apply get_time_frame in E as (H1 & H2 & H3 & H4 & H5 & H6 & H7).
    split; [|by intros _ _]. repeat split; auto; congruence.
  - destruct (pa_stream_cork s b cb userdata) as [[[o s'] ev]|] eqn:E; simpl; [|auto].
    apply stable_cork in E. auto.
  - destruct (pa_stream_flush s cb userdata) as [[[o s'] ev]|] eqn:E; simpl; [|auto].
    destruct (decide (direction s = PA_STREAM_PLAYBACK)) as [Hd|Hd].
    + apply (stable_flush_playback _ _ _ _ _ _ Hd) in E. auto.
    + assert (is_ready s = true) as Hr.
      { revert E. unfold pa_stream_flush. by destruct (is_ready s). }
      apply (flush_other_frame _ _ _ _ _ _ Hd) in E as (H1 & H2 & H3 & H4 & H5 & H6).
      apply bool_decide_eq_true_1 in Hr.
      split; [|by intros _ _]. repeat split; try congruence; try lia.
      right. split; congruence.
  - destruct (pa_stream_prebuf s cb userdata) as [[[o s'] ev]|] eqn:E; simpl; [|auto].
    apply stable_prebuf in E. auto.
  - destruct (pa_stream_trigger s cb userdata) as [[[o s'] ev]|] eqn:E; simpl; [|auto].
    apply stable_trigger in E. auto.
  - destruct (pa_stream_drain s cb userdata) as [[[o s'] ev]|] eqn:E; simpl; [|auto].
    apply stable_drain in E. auto.
  - pose proof (stable_command_request s bytes). auto.
  - pose proof (stable_command_started s). auto.
  - pose proof (stable_command_suspended s susp). auto.
  - pose proof (stable_command_moved s susp attr usec). auto.
  - pose proof (stable_command_overflow_or_underflow s overflow). auto.
  - pose proof (stable_command_killed s). auto.
  - pose proof (stable_set_buffer_attr_callback s a). auto.
  - pose proof (stable_update_sample_rate_callback s new_rate a). auto.
  - pose proof (stable_set_callback k s cb userdata). auto.
  - assert (stable s (pa_tagstruct_command s).2) by by repeat split. auto.
Qed.





(** ** The shape of the correction ring *)

Lemma shape_update_timing_info s cb ud o s' ev :
  pa_stream_update_timing_info s cb ud = Ok (o, s', ev) ->
  ring_shape s -> ring_shape s'.
Proof.
  unfold pa_stream_update_timing_info, pa_tagstruct_command, ring_shape.
  repeat case_match; intros [= <- <- <-]; try discriminate; simpl; [|done].
  intros [Hlen Hcur]. rewrite length_insert. split; [done|].
  apply Nat.mod_upper_bound. lia.
Qed.

Lemma shape_request_auto_timing_update s force :
  ring_shape s -> ring_shape (request_auto_timing_update s force).1.
Proof.
  unfold request_auto_timing_update.
  destruct (negb (has_flag _ s)); [done|].
  destruct (is_ready s && _); [|done].
  destruct (pa_stream_update_timing_info s None 0) as [[[o s'] ev]|e] eqn:E; [|done].
  intros Hs. apply (shape_update_timing_info _ _ _ _ _ _ E) in Hs. exact Hs.
Qed.

Lemma shape_invalidate_indexes s r w :
  ring_shape s -> ring_shape (invalidate_indexes s r w).1.
Proof.
  unfold invalidate_indexes. destruct (negb (is_ready s)); [done|].
  intros Hs. apply shape_request_auto_timing_update.
  by repeat case_match.
Qed.

Lemma shape_set_state s st : ring_shape s -> ring_shape (pa_stream_set_state s st).1.
Proof. unfold pa_stream_set_state. by repeat case_match. Qed.

Lemma shape_context_fail s : ring_shape s -> ring_shape (pa_context_fail s).1.
Proof. apply shape_set_state. Qed.

Ltac shape_step :=
  match goal with
  | |- context [request_auto_timing_update ?x ?f] =>
      let Hs := fresh "Hs" in
      pose proof (shape_request_auto_timing_update x f) as Hs;
      destruct (request_auto_timing_update x f) as [? ?]
  | |- context [invalidate_indexes ?x ?r ?w] =>
      let Hs := fresh "Hs" in
      pose proof (shape_invalidate_indexes x r w) as Hs;
      destruct (invalidate_indexes x r w) as [? ?]
  | |- context [pa_context_fail ?x] =>
      let Hs := fresh "Hs" in
      pose proof (shape_context_fail x) as Hs;
      destruct (pa_context_fail x) as [? ?]
  | |- context [pa_stream_set_state ?x ?st] =>
      let Hs := fresh "Hs" in
      pose proof (shape_set_state x st) as Hs;
      destruct (pa_stream_set_state x st) as [? ?]
  end.

Ltac shape_solve :=
  cbv zeta; repeat shape_step; intros;
  repeat (case_match; simplify_eq/=; try done);
  unfold ring_shape in *; simpl in *;
  rewrite ?length_alter, ?length_insert, ?length_fmap; auto.

Lemma shape_simple_command s command cb ud o s' ev :
  stream_send_simple_command s command cb ud = Ok (o, s', ev) ->
  ring_shape s -> ring_shape s'.
Proof. unfold stream_send_simple_command, pa_tagstruct_command. shape_solve. Qed.

Lemma shape_write s len free_cb offset seek s' ev :
  pa_stream_write s len free_cb offset seek = Some (Ok (s', ev)) ->
  ring_shape s -> ring_shape s'.
Proof.
  unfold pa_stream_write.
  repeat (match goal with
          | |- (if ?b then _ else _) = _ -> _ => destruct b; [try discriminate|]
          end; try (intros [= <- <-]; done)).
  all: try discriminate.
  destruct (write_chunks _ _ _ _ _ _ _ _); [|discriminate].
  set (s1 := if len <? requested_bytes s then _ else _).
  assert (H1 : ring_shape s -> ring_shape s1) by (subst s1; by case_match).
  destruct (is_playback s1); [|intros [= <- <-]; done].
  set (s2 := if valid _ then _ else _).
  set (s3 := if timing_info_valid s2 then _ else _).
  assert (H3 : ring_shape s1 -> ring_shape s3).
  { subst s3 s2. unfold alter_current_correction, ring_shape.
    repeat case_match; simpl; rewrite ?length_alter; done. }
  destruct (negb (timing_info_valid s3) || _).
  - pose proof (shape_request_auto_timing_update s3 true) as H4.
    destruct (request_auto_timing_update s3 true) as [s4 ev4].
    intros [= <- <-]. auto.
  - intros [= <- <-]. auto.
Qed.

Lemma shape_flush s cb ud o s' ev :
  pa_stream_flush s cb ud = Ok (o, s', ev) -> ring_shape s -> ring_shape s'.
Proof.
  unfold pa_stream_flush.
  destruct (stream_send_simple_command s _ cb ud) as [[[o1 s1] ev1]|] eqn:E;
    [|by repeat case_match].
  pose proof (shape_simple_command _ _ _ _ _ _ _ E) as H1.
  set (s2 := if valid _ then _ else _).
  set (s3 := if timing_info_valid s2 then _ else _).
  assert (H3 : ring_shape s1 -> ring_shape s3).
  { subst s3 s2. unfold alter_current_correction, ring_shape.
    repeat case_match; simpl; rewrite ?length_alter; done. }
  pose proof (shape_invalidate_indexes s3 true false) as H4.
  pose proof (shape_request_auto_timing_update s3 true) as H5.
  pose proof (shape_invalidate_indexes s1 false true) as H6.
  destruct (invalidate_indexes s3 true false), (request_auto_timing_update s3 true),
    (invalidate_indexes s1 false true).
  repeat case_match; intros; simplify_eq/=; auto.
Qed.

Lemma shape_create_stream_callback s a :
  ring_shape s -> ring_shape (pa_create_stream_callback s a).1.
Proof.
  unfold pa_create_stream_callback.
  destruct a as [[|]| |r]; [done|apply shape_set_state|apply shape_context_fail|].
  cbv zeta. unfold create_stream_complete. intros Hs.
  match goal with |- context [pa_stream_set_state ?x ?st] =>
    assert (ring_shape x) as Hx by (by repeat case_match);
    pose proof (shape_set_state x st Hx) as H1;
    destruct (pa_stream_set_state x st) as [s1 ev1] end.
  destruct (has_flag _ s1); [|done].
  pose proof (shape_request_auto_timing_update s1 true H1) as H2.
  by destruct (request_auto_timing_update s1 true).
Qed.

Lemma shape_timing_info_callback oob s o t a now :
  ring_shape s -> ring_shape (stream_get_timing_info_callback oob s o t a now).1.
Proof.
  unfold stream_get_timing_info_callback, timing_info_finish, snapshot_reset. cbv zeta.
  destruct a as [[|]| |r];
    [done|done|intros Hs; apply shape_context_fail; exact Hs|].
  unfold ring_shape, clear_old_corrections.
  case_match; simpl; rewrite ?length_fmap; done.
Qed.

Ltac shape_unfold :=
  unfold pa_stream_connect_playback, pa_stream_connect_record, create_stream,
    pa_stream_connect_upload, pa_stream_disconnect_callback, pa_stream_peek,
    pa_stream_drop, pa_stream_record_data, pa_stream_get_time, pa_stream_cork,
    pa_stream_prebuf, pa_stream_trigger, pa_stream_drain, pa_command_request,
    pa_command_stream_started, pa_command_stream_suspended, pa_command_stream_moved,
    pa_command_overflow_or_underflow, pa_command_stream_killed,
    stream_set_buffer_attr_callback, stream_update_sample_rate_callback,
    pa_tagstruct_command, settle, settle_plain,
    pa_stream_set_read_callback, pa_stream_set_write_callback,
    pa_stream_set_state_callback, pa_stream_set_overflow_callback,
    pa_stream_set_underflow_callback, pa_stream_set_latency_update_callback,
    pa_stream_set_moved_callback, pa_stream_set_suspended_callback,
    pa_stream_set_started_callback.

Lemma perform_shape a s : ring_shape s -> ring_shape (perform a s).1.
Proof.
  destruct a; simpl.
  - shape_unfold. shape_solve.
  - shape_unfold. shape_solve.
  - shape_unfold. shape_solve.
  - case_bool_decide; [apply shape_create_stream_callback|done].
  - shape_unfold. shape_solve.
  - destruct (pa_stream_write s len free_cb offset seek) as [[[s' ev]|]|] eqn:E;
      simpl; auto. exact (shape_write _ _ _ _ _ _ _ E).
  - shape_unfold. shape_solve.
  - shape_unfold. shape_solve.
  - shape_unfold. shape_solve.
  - destruct (pa_stream_update_timing_info s cb userdata) as [[[o s'] ev]|] eqn:E;
      simpl; auto. exact (shape_update_timing_info _ _ _ _ _ _ E).
  - apply shape_timing_info_callback.
  - shape_unfold. shape_solve.
  - shape_unfold. shape_solve.
  - destruct (pa_stream_flush s cb userdata) as [[[o s'] ev]|] eqn:E; simpl; auto.
    exact (shape_flush _ _ _ _ _ _ E).
  - shape_unfold.
    destruct (stream_send_simple_command s _ cb userdata) as [[[o1 s1] ev1]|] eqn:E;
      [pose proof (shape_simple_command _ _ _ _ _ _ _ E)|]; shape_solve.
  - shape_unfold.
    destruct (stream_send_simple_command s _ cb userdata) as [[[o1 s1] ev1]|] eqn:E;
      [pose proof (shape_simple_command _ _ _ _ _ _ _ E)|]; shape_solve.
  - shape_unfold. shape_solve.
  - shape_unfold. shape_solve.
  - shape_unfold. shape_solve.
  - shape_unfold. shape_solve.
  - shape_unfold. shape_solve.
  - shape_unfold. shape_solve.
  - shape_unfold. shape_solve.
  - shape_unfold. shape_solve.
  - shape_unfold. shape_solve.
  - destruct k; simpl; shape_unfold; shape_solve.
  - shape_unfold. shape_solve.
Qed.

(** Every stream the library can build has a ring of [N] slots with the
    cursor on one of them. *)
Lemma ring_shape_reachable s :
  (0 < PA_MAX_WRITE_INDEX_CORRECTIONS)%nat -> reachable s -> ring_shape s.
Proof.
  intros HN (c & ss & acts & ->).
  assert (ring_shape (pa_stream_new c ss)) as Hinit.
  { split; simpl; [apply length_replicate|done]. }
  revert Hinit. generalize (pa_stream_new c ss).
  induction acts as [|a acts IH]; intros s Hs; simpl; [done|].
  apply IH. by apply perform_shape.
Qed.

(** ** Latency replies and the barriers *)










(** Which barrier an invalidation raises: the value of the context's tag
    counter at that moment, for the indexes asked for. *)
Lemma invalidate_indexes_barriers s r w :
  is_ready s = true ->
  let s' := (invalidate_indexes s r w).1 in
  write_index_not_before s' = (if w then ctag (context s) else write_index_not_before s) /\
  read_index_not_before s' = (if r then ctag (context s) else read_index_not_before s).
Proof.
  intros Hr. unfold invalidate_indexes. rewrite Hr. simpl.
  match goal with |- context [request_auto_timing_update ?x ?f] =>
    pose proof (request_auto_timing_update_frame x f) as Hf;
    destruct (request_auto_timing_update x f) as [s1 ev1] end.
  simpl in *. destruct Hf as (_ & _ & _ & -> & -> & _).
  destruct r, w; simpl; by repeat case_match.
Qed.

(** Corking a playback stream raises the read barrier to the tag after the
    cork command and leaves the write barrier alone. *)
Lemma cork_playback_barriers s b cb ud o s' ev :
  direction s = PA_STREAM_PLAYBACK ->
  pa_stream_cork s b cb ud = Ok (o, s', ev) ->
  read_index_not_before s' = u32 (op_tag o + 1) /\
  write_index_not_before s' = write_index_not_before s.
Proof.
  intros Hd. unfold pa_stream_cork, pa_tagstruct_command, is_playback.
  destruct (is_ready s) eqn:Hr; [|done]. simpl.
  match goal with |- context [invalidate_indexes ?x true false] =>
    pose proof (invalidate_indexes_barriers x true false Hr) as Hb;
    destruct (invalidate_indexes x true false) as [s1 ev1] end.
  intros Heq. repeat case_bool_decide; try congruence. simplify_eq/=.
  destruct Hb as [Hw Hrd]. split; [exact Hrd|exact Hw].
Qed.

(** ** The time query *)

Lemma run_frame acts s :
  state s <> PA_STREAM_UNCONNECTED ->
  flags (run acts s) = flags s /\ previous_time s <= previous_time (run acts s).
Proof.
  revert s. induction acts as [|a acts IH]; intros s Hs; simpl; [split; [done|lia]|].
  destruct (perform_frames a s) as [(Hc & _ & Hp) _].
  destruct (Hc Hs) as (Hs' & Hf & _).
  destruct (IH _ Hs') as [IHf IHp]. split; [congruence|lia].
Qed.

(** C4: without the flag that switches the clamp off, a successful time
    query returns the maximum of the freshly computed time and the time
    reported before, and records what it returns; whatever happens to the
    stream afterwards, the next successful query returns at least as much. *)
Theorem get_time_monotonic s smoothed t1 s1 acts smoothed2 t2 s3 :
  has_flag PA_STREAM_NOT_MONOTONOUS s = false ->
  pa_stream_get_time s smoothed = Ok (t1, s1) ->
  pa_stream_get_time (run acts s1) smoothed2 = Ok (t2, s3) ->
  t1 = Z.max (if smoother s then smoothed else calc_time s false) (previous_time s) /\
  previous_time s1 = t1 /\
  t1 <= t2.
Proof.
  intros Hflag H1 H2.
  assert (is_ready s = true) as Hr.
  { revert H1. unfold pa_stream_get_time. by destruct (is_ready s). }
  apply bool_decide_eq_true_1 in Hr.
  pose proof (get_time_frame _ _ _ _ H1) as (Hf1 & _ & Hs1 & _).
  assert (t1 = Z.max (if smoother s then smoothed else calc_time s false)
                     (previous_time s) /\ previous_time s1 = t1) as [Ht1 Hp1].
  { revert H1. unfold pa_stream_get_time. rewrite Hflag. simpl.
    repeat (match goal with
            | |- (if ?b then _ else _) = _ -> _ => destruct b; [discriminate|]
            end).
    destruct (Z.ltb_spec (if smoother s then smoothed else calc_time s false)
                         (previous_time s));
      intros [= <- <-]; simpl; split; lia. }
  repeat split; auto.
  destruct (run_frame acts s1) as [Hf2 Hp2]; [congruence|].
  revert H2. unfold pa_stream_get_time, has_flag. rewrite Hf2, Hf1.
  unfold has_flag in Hflag. rewrite Hflag. simpl.
  repeat (match goal with
          | |- (if ?b then _ else _) = _ -> _ => destruct b; [discriminate|]
          end).
  match goal with |- context [?a <? ?b] => destruct (Z.ltb_spec a b) end;
    intros [= <- <-]; lia.
Qed.

(** ** Peeking *)

Lemma run_cursor acts s :
  call_drop ∉ acts ->
  memchunk.memblock (peek_memchunk s) <> None ->
  peek_memchunk (run acts s) = peek_memchunk s /\ peek_data (run acts s) = peek_data s.
Proof.
  revert s. induction acts as [|a acts IH]; intros s Hnd Hm; simpl; [done|].
  apply not_elem_of_cons in Hnd as [Ha Hnd].
  destruct (perform_frames a s) as [_ Hc].
  destruct (Hc (not_eq_sym Ha) Hm) as [Hk Hp].
  destruct (IH (perform a s).1 Hnd) as [IHk IHp]; [congruence|].
  split; congruence.
Qed.

Lemma peek_held s b :
  is_ready s = true -> is_record s = true ->
  memchunk.memblock (peek_memchunk s) = Some b ->
  pa_stream_peek s = Ok (peeked s, s).
Proof. unfold pa_stream_peek. by intros -> -> ->. Qed.

Lemma peek_dequeue s c :
  is_ready s = true -> is_record s = true ->
  memchunk.memblock (peek_memchunk s) = None ->
  pa_memblockq_peek (record_memblockq s) = Some c ->
  let s1 := set_peek_data (data_ptr <$> memchunk.memblock c) (set_peek_memchunk c s) in
  pa_stream_peek s = Ok (peeked s1, s1).
Proof. unfold pa_stream_peek. by intros -> -> -> ->. Qed.

Lemma peek_empty s :
  is_ready s = true -> is_record s = true ->
  memchunk.memblock (peek_memchunk s) = None ->
  pa_memblockq_peek (record_memblockq s) = None ->
  pa_stream_peek s = Ok ((None, 0), s).
Proof. unfold pa_stream_peek. by intros -> -> -> ->. Qed.

Lemma peek_checks s r s1 :
  pa_stream_peek s = Ok (r, s1) -> is_ready s = true /\ is_record s = true.
Proof. unfold pa_stream_peek. by destruct (is_ready s), (is_record s). Qed.

(** C9: peeking again right away returns the same pair and changes
    nothing; and once a peek has returned a chunk, every later successful
    peek returns that same pointer and length and leaves the queue alone,
    whatever else has happened to the stream in between, as long as the
    chunk has not been dropped. *)
Theorem peek_is_idempotent s r s1 :
  pa_stream_peek s = Ok (r, s1) ->
  pa_stream_peek s1 = Ok (r, s1) /\
  forall acts r2 s3,
    r.1 <> None ->
    call_drop ∉ acts ->
    pa_stream_peek (run acts s1) = Ok (r2, s3) ->
    r2 = r /\ s3 = run acts s1.
Proof.
  intros Hpeek. destruct (peek_checks _ _ _ Hpeek) as [Hr Hrec].
  assert (pa_stream_peek s1 = Ok (r, s1) /\
          (r.1 <> None ->
           r = peeked s1 /\ memchunk.memblock (peek_memchunk s1) <> None)) as [Hagain Hheld].
  { destruct (memchunk.memblock (peek_memchunk s)) as [b|] eqn:Hm.
    - rewrite (peek_held s b) in Hpeek by done. injection Hpeek as <- <-.
      split; [by apply (peek_held s b)|]. intros _. split; [done|]. by rewrite Hm.
    - destruct (pa_memblockq_peek (record_memblockq s)) as [c|] eqn:Hq.
      + rewrite (peek_dequeue s c) in Hpeek by done. cbv zeta in Hpeek.
        injection Hpeek as <- <-.
        assert ((exists b, memchunk.memblock c = Some b) \/ memchunk.memblock c = None)
          as [[b Hc]|Hc] by (destruct (memchunk.memblock c); eauto).
        * split; [by apply (peek_held _ b)|]. intros _. split; [done|]. simpl. by rewrite Hc.
        * split;
            [exact (peek_dequeue
                      (set_peek_data (data_ptr <$> memchunk.memblock c)
                         (set_peek_memchunk c s)) c Hr Hrec Hc Hq)|].
          unfold peeked. simpl. by rewrite Hc.
      + rewrite peek_empty in Hpeek by done. injection Hpeek as <- <-.
        split; [by apply peek_empty|done]. }
  split; [done|].
  intros acts r2 s3 Hsome Hnd H2.
  destruct (Hheld Hsome) as [-> Hm].
  destruct (run_cursor acts s1 Hnd Hm) as [Hk Hp].
  destruct (peek_checks _ _ _ H2) as [Hr2 Hrec2].
  destruct (memchunk.memblock (peek_memchunk s1)) as [b|] eqn:Hb; [|done].
  rewrite (peek_held _ b) in H2 by (by rewrite ?Hk).
  injection H2 as <- <-. split; [|done]. unfold peeked. by rewrite Hk, Hp.
Qed.

(** ** Reserving a correction slot *)

(** C6: on a ready playback stream whose ring has its [N > 0] slots, a
    latency query fails with the internal error exactly when the slot after
    the cursor, [(current + 1) mod N], is still valid; nothing is returned
    or changed then.  Otherwise it returns an operation, sends the query
    under the operation's tag, moves the cursor to that slot and fills it
    with [{tag; valid; not absolute; not corrupt; value 0}], leaving the
    other slots as they were. *)
Theorem update_timing_info_reserves_next_slot s cb ud :
  is_ready s = true ->
  direction s = PA_STREAM_PLAYBACK ->
  (0 < PA_MAX_WRITE_INDEX_CORRECTIONS)%nat ->
  length (write_index_corrections s) = PA_MAX_WRITE_INDEX_CORRECTIONS ->
  let cidx :=
    ((current_write_index_correction s + 1) mod PA_MAX_WRITE_INDEX_CORRECTIONS)%nat in
  exists c,
    write_index_corrections s !! cidx = Some c /\
    (pa_stream_update_timing_info s cb ud = Err PA_ERR_INTERNAL <-> valid c = true) /\
    (valid c = false ->
     exists o s',
       pa_stream_update_timing_info s cb ud =
         Ok (o, s', [ev_send_tagstruct PA_COMMAND_GET_PLAYBACK_LATENCY (op_tag o)]) /\
       op_tag o = ctag (context s) /\
       current_write_index_correction s' = cidx /\
       write_index_corrections s' !! cidx =
         Some {| tag := op_tag o; valid := true; value := 0;
                 absolute := false; corrupt := false |} /\
       forall j, j <> cidx ->
         write_index_corrections s' !! j = write_index_corrections s !! j).
Proof.
  intros Hr Hd HN Hlen cidx.
  assert (cidx < length (write_index_corrections s))%nat as Hlt.
  { rewrite Hlen. subst cidx. apply Nat.mod_upper_bound. lia. }
  destruct (lookup_lt_is_Some_2 _ _ Hlt) as [c Hc].
  exists c. split; [done|].
  unfold pa_stream_update_timing_info, pa_tagstruct_command, is_playback.
  rewrite Hr, Hd. simpl. fold cidx.
  unfold correction_at. rewrite Hc. simpl.
  destruct (valid c).
  - split; [done|]. discriminate.
  - split; [split; discriminate|]. intros _.
    exists {| op_tag := ctag (context s); op_callback := cb; op_userdata := ud |}.
    eexists. split; [reflexivity|]. simpl. repeat split.
    + by apply list_lookup_insert_eq.
    + intros j Hj. by apply list_lookup_insert_ne.
Qed.

(** ** The walk over the saved corrections *)

(** The slots the walk reads when the cursor is not on the last slot: the
    ring from the slot after the cursor round to the cursor. *)
Lemma walk_indices_in_range n j :
  (j + n <= PA_MAX_WRITE_INDEX_CORRECTIONS)%nat ->
  walk_indices n j = seq j n.
Proof.
  revert j. induction n as [|n IH]; intros j Hj; simpl; [done|].
  f_equal. destruct (decide (n = 0%nat)) as [->|]; [done|].
  rewrite Nat.mod_small by lia. rewrite <- IH by lia. f_equal. lia.
Qed.

Lemma walk_indices_app n m j :
  walk_indices (n + m) j =
  walk_indices n j ++
  walk_indices m (match n with
                  | O => j
                  | S _ => (j + n) mod PA_MAX_WRITE_INDEX_CORRECTIONS
                  end)%nat.
Proof.
  revert j. induction n as [|n IH]; intros j; simpl; [done|].
  f_equal. rewrite IH. f_equal. destruct n as [|n]; [done|].
  f_equal. rewrite Nat.Div0.add_mod_idemp_l. f_equal. lia.
Qed.

Lemma walk_indices_ring cur :
  (cur + 1 < PA_MAX_WRITE_INDEX_CORRECTIONS)%nat ->
  walk_indices PA_MAX_WRITE_INDEX_CORRECTIONS (cur + 1) =
  seq (cur + 1) (PA_MAX_WRITE_INDEX_CORRECTIONS - (cur + 1)) ++ seq 0 (cur + 1).
Proof.
  intros Hc.
  replace PA_MAX_WRITE_INDEX_CORRECTIONS
    with ((PA_MAX_WRITE_INDEX_CORRECTIONS - (cur + 1)) + (cur + 1))%nat at 1 by lia.
  rewrite walk_indices_app. rewrite walk_indices_in_range by lia. f_equal.
  destruct (PA_MAX_WRITE_INDEX_CORRECTIONS - (cur + 1))%nat as [|k] eqn:Hk; [lia|].
  rewrite <- Hk. replace (cur + 1 + (PA_MAX_WRITE_INDEX_CORRECTIONS - (cur + 1)))%nat
    with PA_MAX_WRITE_INDEX_CORRECTIONS by lia.
  rewrite Nat.Div0.mod_same. apply walk_indices_in_range. lia.
Qed.

Lemma walk_indices_from_end m :
  (m < PA_MAX_WRITE_INDEX_CORRECTIONS)%nat ->
  walk_indices (S m) PA_MAX_WRITE_INDEX_CORRECTIONS =
  PA_MAX_WRITE_INDEX_CORRECTIONS :: seq 1 m.
Proof.
  intros Hm. simpl. f_equal. destruct m as [|m]; [done|].
  replace (PA_MAX_WRITE_INDEX_CORRECTIONS + 1)%nat
    with (1 + 1 * PA_MAX_WRITE_INDEX_CORRECTIONS)%nat by lia.
  rewrite Nat.Div0.mod_add. rewrite Nat.mod_small by lia.
  apply walk_indices_in_range. lia.
Qed.

(** With the cursor on the last slot the walk starts one past the end of
    the array and never comes to slot 0. *)
Lemma walk_indices_last_slot :
  (0 < PA_MAX_WRITE_INDEX_CORRECTIONS)%nat ->
  walk_indices PA_MAX_WRITE_INDEX_CORRECTIONS (PA_MAX_WRITE_INDEX_CORRECTIONS - 1 + 1) =
  PA_MAX_WRITE_INDEX_CORRECTIONS :: seq 1 (PA_MAX_WRITE_INDEX_CORRECTIONS - 1).
Proof.
  intros HN.
  pose proof (walk_indices_from_end (PA_MAX_WRITE_INDEX_CORRECTIONS - 1)) as Hw.
  replace (S (PA_MAX_WRITE_INDEX_CORRECTIONS - 1))
    with PA_MAX_WRITE_INDEX_CORRECTIONS in Hw by lia.
  replace (PA_MAX_WRITE_INDEX_CORRECTIONS - 1 + 1)%nat
    with PA_MAX_WRITE_INDEX_CORRECTIONS by lia.
  apply Hw. lia.
Qed.

(** The walk depends on the ring through the slots of [walk_indices]
    only. *)
Lemma correction_walk_ext oob ring1 ring2 n j ctag i :
  (forall k, k ∈ walk_indices n j -> ring1 !! k = ring2 !! k) ->
  correction_walk oob ring1 n j ctag i = correction_walk oob ring2 n j ctag i.
Proof.
  revert j ctag i. induction n as [|n IH]; intros j ctag i Hk; simpl; [done|].
  unfold correction_at. rewrite (Hk j) by (simpl; left).
  case_match; apply IH; intros k ?; apply Hk; simpl; by right.
Qed.

(** So a correction waiting in slot 0 is lost when the reply comes in with
    the cursor on the last slot. *)
Lemma correction_walk_ignores_slot_0 oob ring c0 t i :
  (0 < PA_MAX_WRITE_INDEX_CORRECTIONS)%nat ->
  let N := PA_MAX_WRITE_INDEX_CORRECTIONS in
  correction_walk oob (<[0%nat := c0]> ring) N (N - 1 + 1) t i =
  correction_walk oob ring N (N - 1 + 1) t i.
Proof.
  intros HN N. apply correction_walk_ext. intros k Hk.
  subst N. rewrite walk_indices_last_slot in Hk by done.
  apply list_lookup_insert_ne.
  apply elem_of_cons in Hk as [->|Hk]; [lia|].
  apply elem_of_seq in Hk. lia.
Qed.

(** The walk is the application, in order, of the corrections collected by
    [applied_corrections]. *)
Lemma correction_walk_applied oob ring n j ctag i :
  correction_walk oob ring n j ctag i =
  foldl (fun i c => apply_correction c i) i (applied_corrections oob ring n j ctag).
Proof.
  revert j ctag i. induction n as [|n IH]; intros j ctag i; simpl; [done|].
  case_match; simpl; apply IH.
Qed.

(** Each iteration reads one slot and applies it at most once. *)
Lemma applied_corrections_sublist oob ring n j ctag :
  applied_corrections oob ring n j ctag
    `sublist_of` (correction_at oob ring <$> walk_indices n j).
Proof.
  revert j ctag. induction n as [|n IH]; intros j ctag; simpl; [done|].
  case_match; [apply sublist_cons|apply sublist_skip]; apply IH.
Qed.

(** As long as no tag is the largest [uint32_t], so that "tag + 1" does not
    wrap, the applied entries are valid and come in strictly increasing tag
    order from the running bound on. *)
Lemma applied_corrections_increasing oob ring n j ctag :
  (forall k c, k ∈ walk_indices n j -> correction_at oob ring k = c ->
     0 <= tag c < 2 ^ 32 - 1) ->
  increasing_from ctag (applied_corrections oob ring n j ctag).
Proof.
  revert j ctag. induction n as [|n IH]; intros j ctag Hr; simpl; [done|].
  assert (0 <= tag (correction_at oob ring j) < 2 ^ 32 - 1) as Hj
    by (apply (Hr j); [simpl; left|done]).
  destruct (valid (correction_at oob ring j)) eqn:Hv; simpl.
  2:{ apply IH. intros k c Hk. apply Hr. simpl. by right. }
  destruct (Z.ltb_spec (tag (correction_at oob ring j)) ctag).
  - apply IH. intros k c Hk. apply Hr. simpl. by right.
  - simpl. split; [done|]. split; [done|].
    unfold u32. rewrite Z.mod_small by lia.
    apply IH. intros k c Hk. apply Hr. simpl. by right.
Qed.

Lemma increasing_from_weaken b b' l : b' <= b -> increasing_from b l -> increasing_from b' l.
Proof. destruct l; simpl; [done|]. intros ? (? & ? & ?). repeat split; auto; lia. Qed.

Lemma increasing_from_Forall b l :
  increasing_from b l -> Forall (fun c => valid c = true /\ b <= tag c) l.
Proof.
  revert b. induction l as [|c l IH]; intros b; simpl; [constructor|].
  intros (Hv & Hb & Hl). constructor; [done|].
  apply IH. eapply increasing_from_weaken; [|exact Hl]. lia.
Qed.

Lemma increasing_from_sorted b l :
  increasing_from b l -> StronglySorted (fun c1 c2 => tag c1 < tag c2) l.
Proof.
  revert b. induction l as [|c l IH]; intros b; simpl; [constructor|].
  intros (Hv & Hb & Hl). constructor; [by eapply IH|].
  apply increasing_from_Forall in Hl.
  eapply List.Forall_impl; [|exact Hl]. simpl. intros ? [_ ?]. lia.
Qed.

(** The slots [a], [a + 1], ... of the array are those of the list. *)
Lemma correction_at_seq oob ring a m :
  (a + m <= length ring)%nat ->
  correction_at oob ring <$> seq a m = take m (drop a ring).
Proof.
  revert a. induction m as [|m IH]; intros a Hm; simpl; [done|].
  destruct (lookup_lt_is_Some_2 ring a) as [c Hc]; [lia|].
  rewrite (drop_S _ c) by done. simpl.
  unfold correction_at at 1. rewrite Hc. simpl. f_equal.
  apply IH. lia.
Qed.

(** With the cursor below the last slot, the walk reads the ring from the
    slot after the cursor round to the cursor, each slot once, and never
    looks past the array. *)
Lemma walk_reads_ring oob ring cur :
  length ring = PA_MAX_WRITE_INDEX_CORRECTIONS ->
  (cur + 1 < PA_MAX_WRITE_INDEX_CORRECTIONS)%nat ->
  correction_at oob ring <$> walk_indices PA_MAX_WRITE_INDEX_CORRECTIONS (cur + 1) =
  drop (cur + 1) ring ++ take (cur + 1) ring.
Proof.
  intros Hlen Hcur. rewrite walk_indices_ring by done. rewrite fmap_app.
  rewrite !correction_at_seq by lia. f_equal.
  rewrite <- Hlen, <- length_drop. apply firstn_all.
Qed.

(** What C1 says of the walk, for a cursor below the last slot: the
    snapshot is corrected by the entries of [applied], which are taken from
    the ring in the order that starts after the cursor, each slot at most
    once; they are valid, their tags are at least [t] and strictly
    increasing (no tag being the largest [uint32_t]). *)
Lemma correction_walk_in_ring_order oob ring cur t i :
  length ring = PA_MAX_WRITE_INDEX_CORRECTIONS ->
  (cur + 1 < PA_MAX_WRITE_INDEX_CORRECTIONS)%nat ->
  Forall (fun c => 0 <= tag c < 2 ^ 32 - 1) ring ->
  let N := PA_MAX_WRITE_INDEX_CORRECTIONS in
  let applied := applied_corrections oob ring N (cur + 1) t in
  correction_walk oob ring N (cur + 1) t i =
    foldl (fun i c => apply_correction c i) i applied /\
  applied `sublist_of` (drop (cur + 1) ring ++ take (cur + 1) ring) /\
  Forall (fun c => valid c = true /\ t <= tag c) applied /\
  StronglySorted (fun c1 c2 => tag c1 < tag c2) applied.
Proof.
  intros Hlen Hcur Htags N applied.
  assert (increasing_from t applied) as Hinc.
  { apply applied_corrections_increasing. intros k c Hk <-.
    subst N. rewrite walk_indices_ring in Hk by done.
    assert (k < length ring)%nat as Hlt.
    { apply elem_of_app in Hk as [Hk|Hk]; apply elem_of_seq in Hk; lia. }
    destruct (lookup_lt_is_Some_2 _ _ Hlt) as [c Hc].
    unfold correction_at. rewrite Hc. simpl.
    rewrite Forall_forall in Htags. apply Htags. apply list_elem_of_In.
    by eapply list_elem_of_lookup_2. }
  split; [apply correction_walk_applied|].
  split; [|split; [by apply increasing_from_Forall|by eapply increasing_from_sorted]].
  subst applied N. rewrite <- (walk_reads_ring oob) by done.
  apply applied_corrections_sublist.
Qed.

(** After the reply for tag [t] no valid slot has a tag up to [t]. *)
Lemma clear_old_corrections_valid t ring c :
  c ∈ clear_old_corrections t ring -> valid c = true -> t < tag c.
Proof.
  unfold clear_old_corrections. intros Hc Hv.
  apply list_elem_of_fmap in Hc as (c' & -> & _).
  destruct (valid c') eqn:Hv'; simpl in Hv.
  - destruct (Z.leb_spec (tag c') t); simpl in *; [done|lia].
  - by rewrite Hv' in Hv.
Qed.

(** The ring a well-formed reply leaves behind. *)
Lemma corrections_after_reply oob s o t r now :
  write_index_corrections
    (stream_get_timing_info_callback oob s o t (answer_reply r) now).1 =
  if is_playback s then clear_old_corrections t (write_index_corrections s)
  else write_index_corrections s.
Proof.
  unfold stream_get_timing_info_callback, timing_info_finish, is_playback. simpl.
  repeat case_bool_decide; first [done|exfalso; auto].
Qed.

(** A well-formed reply for tag [t] on a playback stream leaves no valid
    slot with a tag up to [t]. *)
Lemma timing_reply_clears_old_corrections oob s o t r now c :
  direction s = PA_STREAM_PLAYBACK ->
  let s' := (stream_get_timing_info_callback oob s o t (answer_reply r) now).1 in
  c ∈ write_index_corrections s' -> tag c <= t -> valid c = false.
Proof.
  intros Hd. cbv zeta. rewrite corrections_after_reply.
  unfold is_playback. rewrite Hd. simpl. intros Hc Ht.
  destruct (valid c) eqn:Hv; [|done].
  apply clear_old_corrections_valid in Hc; [lia|done].
Qed.

(** ** The guards of the legacy defaults *)

(** What [automatic_buffer_attr] computes for a server older than protocol
    version 13.  The guards of the first three fields, [!attr->field <= 0],
    hold when the field is set, not when it is unset. *)
Lemma automatic_buffer_attr_legacy s attr ss :
  version (context s) < 13 ->
  let a := automatic_buffer_attr s attr ss in
  let t := if tlength attr =? 0 then 0
           else u32 (pa_usec_to_bytes (250 * PA_USEC_PER_MSEC) ss) in
  maxlength a = (if maxlength attr =? 0 then 0 else 4 * 1024 * 1024) /\
  tlength a = t /\
  minreq a = (if minreq attr =? 0 then 0 else t / 5) /\
  prebuf a = (if prebuf attr =? 0 then t else prebuf attr) /\
  fragsize a = (if fragsize attr =? 0 then t else fragsize attr).
Proof.
  intros Hv. cbv zeta. unfold automatic_buffer_attr, c_true, c_not.
  destruct (Z.leb_spec 13 (version (context s))); [lia|].
  destruct attr as [ml tl pb mr fs]. cbn.
  destruct (Z.eqb_spec ml 0); cbn; destruct (Z.eqb_spec tl 0); cbn;
    destruct (Z.eqb_spec mr 0); cbn; destruct (Z.eqb_spec pb 0); cbn;
    destruct (Z.eqb_spec fs 0); by subst.
Qed.

(** ** The started event *)

(** What the handler of the started event hands to the started callback
    on a ready stream that does not refresh its timing by itself: the user
    data of the suspended callback. *)
Lemma command_stream_started_userdata s f :
  13 <= version (context s) ->
  is_ready s = true ->
  has_flag PA_STREAM_AUTO_TIMING_UPDATE s = false ->
  started_callback (callbacks s) = Some f ->
  pa_command_stream_started s = (s, [ev_notify f (suspended_userdata (callbacks s))]).
Proof.
  intros Hv Hr Hfl Hcb. unfold pa_command_stream_started, request_auto_timing_update.
  destruct (Z.ltb_spec (version (context s)) 13); [lia|].
  rewrite Hr, Hfl. simpl. by rewrite Hcb.
Qed.

End Properties.

(** * Evaluations on concrete streams *)

(** C1: the walk over the saved corrections starts at index [current + 1]
    without reduction modulo the ring size.  In [ring_wrapped] the cursor is
    on the last slot, 9, and slot 0 holds the valid entry of tag 17 with 100
    bytes written after that query.  When the reply for tag 17 arrives, the
    walk reads index 10, past the end of the array, then slots 1 to 9, and
    never slot 0: whatever lies past the array and whatever slot 0 holds,
    the snapshot is the same; with nothing to apply past the array the write
    index stays at the 5000 the server reported instead of 5100, and slot 0
    is invalidated with its correction never applied. *)
Theorem correction_walk_skips_slot_after_last_cursor :
  reachable ring_wrapped /\
  current_write_index_correction ring_wrapped = 9%nat /\
  write_index_corrections ring_wrapped !! 0%nat =
    Some {| tag := 17; valid := true; value := 100; absolute := false; corrupt := false |} /\
  walk_indices 10 (current_write_index_correction ring_wrapped + 1) =
    [10; 1; 2; 3; 4; 5; 6; 7; 8; 9]%nat /\
  (forall oob c0 i,
     correction_walk oob (<[0%nat := c0]> (write_index_corrections ring_wrapped)) 10
       (current_write_index_correction ring_wrapped + 1) 17 i =
     correction_walk oob (write_index_corrections ring_wrapped) 10
       (current_write_index_correction ring_wrapped + 1) 17 i) /\
  let s' := (stream_get_timing_info_callback zero_correction ring_wrapped (demo_op 17) 17
               (answer_reply (demo_latency 5000)) 300).1 in
  write_index (timing_info s') = 5000 /\
  write_index_corrupt (timing_info s') = false /\
  valid <$> write_index_corrections s' !! 0%nat = Some false.
Proof.
  split.
  { exists (demo_context 13), demo_sample_spec, ring_wrap_actions. reflexivity. }
  split; [by vm_compute|]. split; [by vm_compute|]. split; [by vm_compute|].
  split; [|by vm_compute].
  intros oob c0 i.
  exact (correction_walk_ignores_slot_0 (ext := demo_externals) oob
           (write_index_corrections ring_wrapped) c0 17 i (Nat.lt_0_succ 9)).
Qed.

(** C7: with a server of protocol version 12, caller-supplied attributes
    that leave every field unset come back with [maxlength], [tlength] and
    [minreq] still 0 (and so [prebuf] and [fragsize], which copy [tlength],
    0 as well), and connecting with them puts these zeros into the stream;
    and a caller-supplied [maxlength] of 65536, [tlength] of 8192 and
    [minreq] of 1024 are replaced by the defaults. *)
Theorem automatic_buffer_attr_guards_are_inverted :
  automatic_buffer_attr legacy_stream attr_unset demo_sample_spec = attr_unset /\
  (exists s ev,
     pa_stream_connect_playback legacy_stream (Some attr_unset) [] = Ok (s, ev) /\
     buffer_attr s = attr_unset) /\
  automatic_buffer_attr legacy_stream attr_some demo_sample_spec =
    {| maxlength := 4 * 1024 * 1024; tlength := 250000; prebuf := 250000;
       minreq := 50000; fragsize := 250000 |}.
Proof.
  split; [by vm_compute|]. split; [|by vm_compute].
  eexists _, _. split; by vm_compute.
Qed.

(** C8: on a ready playback stream of a version 13 context, with the
    suspended callback registered with user data 111 and the started
    callback (function 200) registered with user data 222, the started
    event calls function 200 with 111, the user data of the suspended
    callback. *)
Theorem started_callback_gets_suspended_userdata :
  started_callback (callbacks demo_with_callbacks) = Some 200 /\
  started_userdata (callbacks demo_with_callbacks) = 222 /\
  suspended_userdata (callbacks demo_with_callbacks) = 111 /\
  (pa_command_stream_started demo_with_callbacks).2 = [ev_notify 200 111].
Proof. repeat split; by vm_compute. Qed.


(** * Instances of the theorems on concrete streams *)


Lemma write_credit_witness :
  exists s' ev,
    pa_stream_write demo_playback 100 None 0 PA_SEEK_RELATIVE = Some (Ok (s', ev)) /\
    requested_bytes demo_playback = 4096 /\
    requested_bytes s' = Z.max 0 (4096 - 100).
Proof.
  eexists _, _.
  assert (Hw : pa_stream_write demo_playback 100 None 0 PA_SEEK_RELATIVE
               = Some (Ok (_, _))) by (vm_compute; reflexivity).
  split; [exact Hw|]. split; [by vm_compute|].
  refine (proj1 (write_credit demo_playback 100 None 0 PA_SEEK_RELATIVE _ _ Hw _ _)).
  - vm_compute. split; [discriminate|reflexivity].
  - discriminate.
Defined.

Lemma write_zero_length_is_noop_witness :
  pa_stream_write demo_playback 0 (Some 99) 0 PA_SEEK_RELATIVE =
  Some (Ok (demo_playback, [])).
Proof.
  apply write_zero_length_is_noop; [reflexivity|left; reflexivity|left; reflexivity].
Defined.

Lemma get_time_monotonic_witness :
  exists s1 s3,
    pa_stream_get_time demo_timed 500000 = Ok (500000, s1) /\
    pa_stream_get_time (run [call_cork true None 0; demo_answer 9 0] s1) 490000
      = Ok (500000, s3) /\
    500000 <= 500000.
Proof.
  eexists _, _.
  match goal with
  | |- ?first /\ ?second /\ _ =>
      assert (H1 : first) by (vm_compute; reflexivity);
      assert (H2 : second) by (vm_compute; reflexivity)
  end.
  split; [exact H1|]. split; [exact H2|].
  refine (proj2 (proj2 (get_time_monotonic demo_timed 500000 500000 _
            [call_cork true None 0; demo_answer 9 0] 490000 500000 _ _ H1 H2))).
  by vm_compute.
Defined.


Lemma update_timing_info_reserves_next_slot_witness :
  exists c,
    write_index_corrections demo_playback !! 1%nat = Some c /\
    (pa_stream_update_timing_info demo_playback None 0 = Err PA_ERR_INTERNAL
     <-> valid c = true).
Proof.
  destruct (update_timing_info_reserves_next_slot demo_playback None 0)
    as (c & Hc & Hiff & _).
  - by vm_compute.
  - by vm_compute.
  - apply Nat.lt_0_succ.
  - by vm_compute.
  - exists c. split; [exact Hc|exact Hiff].
Defined.

Lemma peek_is_idempotent_witness :
  exists s1,
    pa_stream_peek demo_recording = Ok ((Some 4112, 512), s1) /\
    pa_stream_peek s1 = Ok ((Some 4112, 512), s1).
Proof.
  eexists.
  assert (Hpeek : pa_stream_peek demo_recording = Ok ((Some 4112, 512), _))
    by (vm_compute; reflexivity).
  split; [exact Hpeek|].
  exact (proj1 (peek_is_idempotent demo_recording _ _ Hpeek)).
Defined.

(** * The scenarios of the specification *)

(** Credit and callback: the reply to the create command makes the stream
    ready with 4096 bytes of credit and calls the write callback with it. *)
Example scenario_credit_and_callback :
  let s0 := pa_stream_new (demo_context 13) demo_sample_spec in
  state (run scenario_connect s0) = PA_STREAM_READY /\
  channel (run scenario_connect s0) = 7 /\
  requested_bytes (run scenario_connect s0) = 4096 /\
  run_log scenario_connect s0 =
    [ev_send_tagstruct PA_COMMAND_CREATE_PLAYBACK_STREAM 7; ev_request 300 4096 333].
Proof. repeat split; by vm_compute. Qed.

(** Absolute seek correction: a write of 500 bytes at absolute offset 1000
    after the query; the reply reports write index 0 and the snapshot ends
    at 1500, not corrupt. *)
Example scenario_absolute_seek :
  let s := run [call_write 500 None 1000 PA_SEEK_ABSOLUTE; scenario_reply 0] demo_queried in
  write_index (timing_info s) = 1500 /\ write_index_corrupt (timing_info s) = false.
Proof. split; by vm_compute. Qed.

(** Corrupting seek: a write relative to the read index after the query
    leaves the snapshot's write index corrupt. *)
Example scenario_corrupting_seek :
  let s := run [call_write 100 None 200 PA_SEEK_RELATIVE_ON_READ; scenario_reply 9000]
             demo_queried in
  write_index_corrupt (timing_info s) = true.
Proof. by vm_compute. Qed.

(** Relative writes after the query are added to what the server
    reported. *)
Example scenario_relative_writes :
  let s := run [call_write 100 None 0 PA_SEEK_RELATIVE; call_write 50 None 0 PA_SEEK_RELATIVE;
                scenario_reply 9000] demo_queried in
  write_index (timing_info s) = 9150 /\ write_index_corrupt (timing_info s) = false.
Proof. split; by vm_compute. Qed.

(** Barrier: corking the playback stream after the query (the cork command
    takes tag 9) raises the read barrier to 10, and the reply for tag 8 comes
    back with the read index corrupt; the write barrier stays at 0. *)
Example scenario_cork_barrier :
  let s := run [call_cork true None 0] demo_queried in
  read_index_not_before s = 10 /\ write_index_not_before s = 0 /\
  read_index_corrupt (timing_info (run [scenario_reply 0] s)) = true /\
  write_index_corrupt (timing_info (run [scenario_reply 0] s)) = false.
Proof. repeat split; by vm_compute. Qed.

(** * Further properties of the stream *)

Section Lifecycle.
Context `{ext : Externals}.

(** ** Runs, step by step *)

Lemma run_cons a acts s : run (a :: acts) s = run acts (perform a s).1.
Proof. done. Qed.

Lemma run_app acts1 acts2 s : run (acts1 ++ acts2) s = run acts2 (run acts1 s).
Proof. apply foldl_app. Qed.

Lemma run_log_acc acts s log :
  (foldl (fun '(s, log) a => let '(s', ev) := perform a s in (s', log ++ ev))
     (s, log) acts).2 = log ++ run_log acts s.
Proof.
  unfold run_log. revert s log.
  induction acts as [|a acts IH]; intros s log; simpl; [by rewrite app_nil_r|].
  destruct (perform a s) as [s' ev]. simpl.
  rewrite (IH s' (log ++ ev)), (IH s' ev). by rewrite app_assoc.
Qed.

Lemma run_log_cons a acts s :
  run_log (a :: acts) s = (perform a s).2 ++ run_log acts (perform a s).1.
Proof.
  unfold run_log at 1. simpl. destruct (perform a s) as [s' ev]. simpl.
  apply run_log_acc.
Qed.

Lemma run_connected acts s :
  state s <> PA_STREAM_UNCONNECTED ->
  state (run acts s) <> PA_STREAM_UNCONNECTED /\
  direction (run acts s) = direction s /\ flags (run acts s) = flags s.
Proof.
  revert s. induction acts as [|a acts IH]; intros s Hs; [done|].
  rewrite run_cons.
  destruct (perform_frames a s) as [(Hc & _ & _) _].
  destruct (Hc Hs) as (Hs' & Hf & Hd).
  destruct (IH _ Hs') as (? & ? & ?). repeat split; [done|congruence..].
Qed.

(** X1: a stream is connected at most once.  After a successful connect,
    whatever happens to the stream, every further connect fails with
    PA_ERR_BADSTATE, and the stream keeps the direction and the flags it was
    connected with. *)
Theorem connect_at_most_once dir s attr fl s1 ev acts :
  create_stream dir s attr fl = Ok (s1, ev) ->
  direction (run acts s1) = dir /\
  flags (run acts s1) = fl /\
  forall dir' attr' fl',
    create_stream dir' (run acts s1) attr' fl' = Err PA_ERR_BADSTATE.
Proof.
  intros E. apply create_stream_frame in E as (_ & Hs1 & Hd & Hf & _).
  destruct (run_connected acts s1) as (Hs & Hd' & Hf'); [by rewrite Hs1|].
  split; [congruence|]. split; [congruence|].
  intros dir' attr' fl'. unfold create_stream.
  by case_bool_decide.
Qed.

(** ** State and callbacks *)

Lemma same_life_refl s : same_life s s.
Proof. by split. Qed.

Lemma same_life_trans s1 s2 s3 : same_life s1 s2 -> same_life s2 s3 -> same_life s1 s3.
Proof. unfold same_life. intuition congruence. Qed.

#[local] Hint Resolve same_life_refl : core.

Lemma same_life_update_timing_info s cb ud o s' ev :
  pa_stream_update_timing_info s cb ud = Ok (o, s', ev) -> same_life s s'.
Proof.
  unfold pa_stream_update_timing_info, pa_tagstruct_command.
  repeat case_match; intros [= <- <- <-]; try discriminate; by split.
Qed.

Lemma same_life_request_auto_timing_update s force :
  same_life s (request_auto_timing_update s force).1.
Proof.
  unfold request_auto_timing_update.
  destruct (negb (has_flag _ s)); [done|].
  destruct (is_ready s && _); [|done].
  destruct (pa_stream_update_timing_info s None 0) as [[[o s'] ev]|e] eqn:E; [|done].
  apply same_life_update_timing_info in E. unfold same_life in *. simpl. intuition.
Qed.

Lemma same_life_invalidate_indexes s r w : same_life s (invalidate_indexes s r w).1.
Proof.
  unfold invalidate_indexes. destruct (negb (is_ready s)); [done|].
  eapply same_life_trans; [|apply same_life_request_auto_timing_update].
  cbv zeta. by repeat case_match.
Qed.

Lemma life_step_same s s' : same_life s s' -> life_step s s'.
Proof. by left. Qed.

Lemma life_step_trans s1 s2 s3 : life_step s1 s2 -> life_step s2 s3 -> life_step s1 s3.
Proof.
  unfold life_step, same_life, is_terminal.
  intros [[E1 E2]|[[T1 C1]|[N1 N2]]] [[E3 E4]|[[T2 C2]|[N3 N4]]].
  - left. split; congruence.
  - right; left. done.
  - right; right. rewrite <- E1. done.
  - right; left. rewrite E3, E4. done.
  - right; left. done.
  - congruence.
  - right; right. rewrite E3. done.
  - right; left. done.
  - right; right. done.
Qed.

Lemma life_set_state_terminal s st :
  st = PA_STREAM_FAILED \/ st = PA_STREAM_TERMINATED ->
  life_step s (pa_stream_set_state s st).1.
Proof.
  intros Hst. unfold pa_stream_set_state. case_bool_decide; [by left|].
  right; left. destruct Hst as [-> | ->]; simpl; done.
Qed.

Lemma life_context_fail s : life_step s (pa_context_fail s).1.
Proof. apply life_set_state_terminal. by left. Qed.

Lemma life_set_state_from s st :
  is_terminal s = false -> st <> PA_STREAM_FAILED -> st <> PA_STREAM_TERMINATED ->
  life_step s (pa_stream_set_state s st).1.
Proof.
  intros Hs H1 H2. unfold pa_stream_set_state. case_bool_decide; [by left|].
  right; right. split; [done|].
  destruct st; simpl; done.
Qed.

End Lifecycle.
